(** * glu: a command-line client for GitLab user administration

    Shallow embedding of [main.go] and the properties of its pagination,
    sorting, searching, validation and dispatch logic.

    Conventions of the embedding:
    - a Go [string] is a [string] (a sequence of bytes);
    - a Go [int] is a [Z] (identifiers and page counters; the one place
      where arithmetic happens, the page counter, has its 64-bit
      wrap-around written out);
    - the process runs against a [World]: the log of HTTP requests issued
      so far, the writes made to standard output and the console input;
    - [check], index-out-of-range and [log.Fatalf] end the run with a
      [Panic] or [Fatal] outcome. *)

From Stdlib Require Import ZArith String Ascii List Bool Lia.
From Stdlib Require Import Sorted Permutation DecimalString DecimalPos.
From stdpp Require Import base option list gmap strings.
From stdpp Require sorting.

Import ListNotations.
Local Open Scope string_scope.
Local Open Scope Z_scope.

(** ** Data model *)

(** [time.Time] values are never inspected by the program; a timestamp is
    kept as the text it was decoded from. *)
Definition Time := string.

(** One element of [GitlabUsers]. *)
Record GitlabUser := mkUser {
  ID : Z;
  Name : string;
  Username : string;
  State : string;
  CreatedAt : Time;
  PublicEmail : string;
  LastSignInAt : Time;
  ConfirmedAt : Time;
  LastActivityOn : string;
  Email : string;
  CurrentSignInAt : Time;
  External : bool;
  IsAdmin : bool
}.

(** [GitlabUsers] is a slice of such elements. *)
Abbreviation GitlabUsers := (list GitlabUser) (only parsing).

Definition GitlabURL : string := "https://git.domain.com/api/v4/".

(** ** Outcomes and the world *)

Inductive Method := GET | POST.

Record Request := mkRequest {
  req_method : Method;
  req_url : string;
  req_contentType : string;
  req_body : string
}.

(** An HTTP response as the program sees it: the status line, the header
    map and the body ([None] when reading the body fails). *)
Record Response := mkResponse {
  Status : string;
  Header : gmap string (list string);
  Body : option string
}.

(** The world of one run: the requests sent so far (oldest first), the
    writes to standard output (oldest first) and the unread part of
    standard input. *)
Record World := mkWorld {
  requests : list Request;
  stdout : list string;
  stdin : string
}.

Definition world0 : World := mkWorld [] [] EmptyString.

Inductive Outcome (A : Type) :=
| Done (a : A)
| Panic (msg : string)
| Fatal (msg : string)
| OutOfFuel.
Arguments Done {A} a.
Arguments Panic {A} msg.
Arguments Fatal {A} msg.
Arguments OutOfFuel {A}.

(** The monad of the program: a computation reads and extends the world
    and ends in an outcome. *)
Definition M (A : Type) := World -> Outcome A * World.

Definition ret {A} (a : A) : M A := fun w => (Done a, w).

Definition bind {A B} (m : M A) (k : A -> M B) : M B :=
  fun w =>
    match m w with
    | (Done a, w') => k a w'
    | (Panic e, w') => (Panic e, w')
    | (Fatal e, w') => (Fatal e, w')
    | (OutOfFuel, w') => (OutOfFuel, w')
    end.

Definition panic {A} (msg : string) : M A := fun w => (Panic msg, w).
Definition log_Fatalf {A} (msg : string) : M A := fun w => (Fatal msg, w).
Definition out_of_fuel {A} : M A := fun w => (OutOfFuel, w).

Declare Scope glu_scope.
Delimit Scope glu_scope with glu.
Notation "x <- m ;; k" := (bind m (fun x => k))
  (at level 100, m at next level, right associativity) : glu_scope.
Notation "m ;;; k" := (bind m (fun _ => k))
  (at level 100, right associativity) : glu_scope.
Local Open Scope glu_scope.

(** [check(e)]: a failed call ([None]) panics. *)
Definition check {A} (what : string) (r : option A) : M A :=
  match r with
  | Some a => ret a
  | None => panic what
  end.

(** One call of [fmt.Print], [fmt.Println] or [fmt.Printf]: the text
    written is appended to standard output. *)
Definition fmt_Print (s : string) : M unit :=
  fun w => (Done tt, mkWorld (requests w) (stdout w ++ [s]) (stdin w)).

Definition newline : string := String (ascii_of_nat 10) EmptyString.
Definition tab : string := String (ascii_of_nat 9) EmptyString.

Definition fmt_Println (s : string) : M unit := fmt_Print (s ++ newline).

(** ** Library primitives used by the program *)

(** Go's [int] is 64 bits wide: arithmetic wraps around. *)
Definition minInt : Z := - 2 ^ 63.
Definition maxInt : Z := 2 ^ 63 - 1.
Definition in_int (z : Z) : bool := (minInt <=? z) && (z <=? maxInt).
Definition wrap64 (z : Z) : Z := (z + 2 ^ 63) mod 2 ^ 64 - 2 ^ 63.

(** [strconv.FormatBool]. *)
Definition strconv_FormatBool (b : bool) : string :=
  if b then "true" else "false".

(** [strconv.Itoa]: the decimal text of an integer. *)
Definition strconv_Itoa (z : Z) : string :=
  NilZero.string_of_int (Z.to_int z).

(** [strconv.Atoi]: an optional sign, then one or more decimal digits;
    anything else, and any value outside the range of [int], is an error. *)
Definition digit_of (c : ascii) : option Z :=
  let n := Z.of_nat (nat_of_ascii c) in
  if (48 <=? n) && (n <=? 57) then Some (n - 48) else None.

Fixpoint parse_digits (s : string) (acc : Z) : option Z :=
  match s with
  | EmptyString => Some acc
  | String c s' =>
      match digit_of c with
      | Some d => parse_digits s' (acc * 10 + d)
      | None => None
      end
  end.

Definition strconv_Atoi (s : string) : option Z :=
  match s with
  | EmptyString => None
  | String c s' =>
      let neg := Ascii.eqb c "-" in
      let ds := if neg || Ascii.eqb c "+" then s' else s in
      match ds with
      | EmptyString => None
      | _ =>
          match parse_digits ds 0 with
          | Some n =>
              let v := if neg then - n else n in
              if in_int v then Some v else None
          | None => None
          end
      end
  end.

(** [strings.HasPrefix] and [strings.Contains], on bytes. *)
Fixpoint strings_HasPrefix (s p : string) {struct p} : bool :=
  match p, s with
  | EmptyString, _ => true
  | String _ _, EmptyString => false
  | String c p', String d s' => Ascii.eqb c d && strings_HasPrefix s' p'
  end.

Fixpoint strings_Contains (s substr : string) : bool :=
  strings_HasPrefix s substr ||
  match s with
  | EmptyString => false
  | String _ s' => strings_Contains s' substr
  end.

(** [strings.Replace(s, "\n", "", -1)]: every line feed is removed. *)
Fixpoint remove_newlines (s : string) : string :=
  match s with
  | EmptyString => EmptyString
  | String c s' =>
      if Ascii.eqb c (ascii_of_nat 10) then remove_newlines s'
      else String c (remove_newlines s')
  end.

(** [bufio.Reader.ReadString('\n')]: the input up to and including the
    first line feed (all of it when there is none), and what is left. *)
Fixpoint ReadString (input : string) : string * string :=
  match input with
  | EmptyString => (EmptyString, EmptyString)
  | String c s' =>
      if Ascii.eqb c (ascii_of_nat 10) then (String c EmptyString, s')
      else let '(line, rest) := ReadString s' in (String c line, rest)
  end.

(** ** Regular expressions

    The two patterns of [createUser] are anchored at both ends and use
    only ASCII classes, so [MatchString] is a whole-string match on
    bytes.  Matching is by derivatives. *)
Inductive regex :=
| Void
| Eps
| Class (p : ascii -> bool)
| Cat (r1 r2 : regex)
| Alt (r1 r2 : regex)
| Star (r : regex).

Definition Plus (r : regex) : regex := Cat r (Star r).
Definition Opt (r : regex) : regex := Alt Eps r.

(** [r{0,n}]. *)
Fixpoint UpTo (n : nat) (r : regex) : regex :=
  match n with
  | O => Eps
  | S n' => Opt (Cat r (UpTo n' r))
  end.

Fixpoint nullable (r : regex) : bool :=
  match r with
  | Void => false
  | Eps => true
  | Class _ => false
  | Cat r1 r2 => nullable r1 && nullable r2
  | Alt r1 r2 => nullable r1 || nullable r2
  | Star _ => true
  end.

Fixpoint deriv (c : ascii) (r : regex) : regex :=
  match r with
  | Void => Void
  | Eps => Void
  | Class p => if p c then Eps else Void
  | Cat r1 r2 =>
      if nullable r1 then Alt (Cat (deriv c r1) r2) (deriv c r2)
      else Cat (deriv c r1) r2
  | Alt r1 r2 => Alt (deriv c r1) (deriv c r2)
  | Star r1 => Cat (deriv c r1) (Star r1)
  end.

Fixpoint MatchString (r : regex) (s : string) : bool :=
  match s with
  | EmptyString => nullable r
  | String c s' => MatchString (deriv c r) s'
  end.

Definition between (lo hi : ascii) (c : ascii) : bool :=
  (nat_of_ascii lo <=? nat_of_ascii c)%nat &&
  (nat_of_ascii c <=? nat_of_ascii hi)%nat.

Fixpoint one_of (cs : string) (c : ascii) : bool :=
  match cs with
  | EmptyString => false
  | String d cs' => Ascii.eqb c d || one_of cs' c
  end.

Definition alpha (c : ascii) : bool := between "A" "Z" c || between "a" "z" c.
Definition alnum (c : ascii) : bool := alpha c || between "0" "9" c.

(** [^[A-Za-z]+$] *)
Definition isAlpha : regex := Plus (Class alpha).

(** [^[a-zA-Z0-9.!#$%&'*+\/=?^_`{|}~-]+@[a-zA-Z0-9](?:[a-zA-Z0-9-]{0,61}[a-zA-Z0-9])?(?:\.[a-zA-Z0-9](?:[a-zA-Z0-9-]{0,61}[a-zA-Z0-9])?)*$] *)
Definition local_char (c : ascii) : bool :=
  alnum c || one_of ".!#$%&'*+/=?^_`{|}~-" c.
Definition host_inner (c : ascii) : bool := alnum c || Ascii.eqb c "-".
Definition is_char (d : ascii) (c : ascii) : bool := Ascii.eqb c d.

Definition label : regex :=
  Cat (Class alnum) (Opt (Cat (UpTo 61 (Class host_inner)) (Class alnum))).

Definition rxEmail : regex :=
  Cat (Plus (Class local_char))
      (Cat (Class (is_char "@"))
           (Cat label (Star (Cat (Class (is_char ".")) label)))).

(** ** Sorting: [sort.Interface] and [sort.Sort] *)

(** The three methods of Go's [sort.Interface].  [Less] and [Swap] index
    the collection; an index out of range is a run-time panic ([None]). *)
Class sort_Interface (T : Type) := {
  Len : T -> nat;
  Less : T -> nat -> nat -> option bool;
  Swap : T -> nat -> nat -> option T
}.

(** The methods of [GitlabUsers].  [Swap] is the parallel assignment
    [s[i], s[j] = s[j], s[i]]: both elements are read, then [s[i]] and
    [s[j]] are written in this order. *)
#[export] Instance GitlabUsers_sort : sort_Interface GitlabUsers := {
  Len s := length s;
  Less s i j :=
    match s !! i, s !! j with
    | Some a, Some b => Some (ID a <? ID b)
    | _, _ => None
    end;
  Swap s i j :=
    match s !! i, s !! j with
    | Some a, Some b => Some (<[j := a]> (<[i := b]> s))
    | _, _ => None
    end
}.

(** [sort.Sort] belongs to Go's standard library and touches the data
    only through the three methods.  It is embedded by the library's
    insertion sort over the whole collection, the routine [sort.Sort]
    itself runs on short slices:
    [for i := a + 1; i < b; i++ {
       for j := i; j > a && data.Less(j, j-1); j-- { data.Swap(j, j-1) } }]. *)
Section Sort.
Context {T : Type} `{sort_Interface T}.

Fixpoint insert_down (data : T) (a j : nat) : option T :=
  match j with
  | O => Some data
  | S j' =>
      if (a <? j)%nat then
        match Less data j j' with
        | Some true =>
            match Swap data j j' with
            | Some data' => insert_down data' a j'
            | None => None
            end
        | Some false => Some data
        | None => None
        end
      else Some data
  end.

(** [n] iterations of the outer loop, the first one at index [i]. *)
Fixpoint insertion_from (n : nat) (data : T) (a i : nat) : option T :=
  match n with
  | O => Some data
  | S n' =>
      match insert_down data a i with
      | Some data' => insertion_from n' data' a (S i)
      | None => None
      end
  end.

Definition insertionSort (data : T) (a b : nat) : option T :=
  insertion_from (b - (a + 1)) data a (a + 1).

Definition sort_Sort (data : T) : option T :=
  insertionSort data 0 (Len data).

(** Any run of a routine that reorders the data through [Swap] alone:
    the index pairs it swaps, in order. *)
Fixpoint run_swaps (data : T) (swaps : list (nat * nat)) : option T :=
  match swaps with
  | [] => Some data
  | (i, j) :: rest =>
      match Swap data i j with
      | Some data' => run_swaps data' rest
      | None => None
      end
  end.
End Sort.

(** ** The program *)

Record foundUser := mkFound {
  fName : string;
  fID : Z;
  fUsername : string;
  fEmail : string
}.

Record Flags := mkFlags {
  token : string;
  searchText : string;
  create : bool;
  active : bool;
  bu : string
}.

(** The defaults of the five flags. *)
Definition default_flags : Flags :=
  mkFlags "YOUR_ACCESS_TOKEN_HERE" "" false true "".

Section Program.
(** The remote end: the answer to a request, given the requests that
    came before it; [None] is a transport error. *)
Variable server : list Request -> Request -> option Response.
(** [json.Unmarshal] into a [GitlabUsers] and [json.Marshal] of the
    creation payload; [None] is an error. *)
Variable json_Unmarshal : string -> option GitlabUsers.
Variable json_Marshal : gmap string string -> option string.

Definition send (r : Request) : M Response :=
  fun w =>
    let w' := mkWorld (requests w ++ [r]) (stdout w) (stdin w) in
    match server (requests w) r with
    | Some resp => (Done resp, w')
    | None => (Panic "http", w')
    end.

Definition http_Get (url : string) : M Response :=
  send (mkRequest GET url "" "").

Definition http_Post (url contentType body : string) : M Response :=
  send (mkRequest POST url contentType body).

(** [response.Header[k][0]]: a missing key gives the nil slice, whose
    first element does not exist. *)
Definition header_first (resp : Response) (k : string) : M string :=
  match Header resp !! k with
  | Some (v :: _) => ret v
  | _ => panic "index out of range"
  end.

(** The loop of [getUsers]:
    [for ; currentPage < totalPages; currentPage++]. *)
Fixpoint getUsers_loop (fuel : nat) (t a_str : string)
    (currentPage totalPages : Z) (jsonResponse : GitlabUsers)
    : M GitlabUsers :=
  if currentPage <? totalPages then
    match fuel with
    | O => out_of_fuel
    | S fuel' =>
        let nextPage := strconv_Itoa (wrap64 (currentPage + 1)) in
        response <- http_Get (GitlabURL ++ "users?active=" ++ a_str ++ "&external=false&order_by=id&page=" ++ nextPage ++ "&per_page=100&skip_ldap=false&sort=desc&with_custom_attributes=false&private_token=" ++ t) ;;
        data <- check "read" (Body response) ;;
        tmpJsonResponse <- check "json" (json_Unmarshal data) ;;
        getUsers_loop fuel' t a_str (wrap64 (currentPage + 1)) totalPages
          (jsonResponse ++ tmpJsonResponse)%list
    end
  else ret jsonResponse.

Definition getUsers (fuel : nat) (t : string) (a : bool) : M GitlabUsers :=
  let a_str := strconv_FormatBool a in
  response <- http_Get (GitlabURL ++ "users?active=" ++ a_str ++ "&external=false&order_by=id&page=1&per_page=100&skip_ldap=false&sort=desc&with_custom_attributes=false&private_token=" ++ t) ;;
  data <- check "read" (Body response) ;;
  jsonResponse <- check "json" (json_Unmarshal data) ;;
  x_page <- header_first response "X-Page" ;;
  currentPage <- check "atoi" (strconv_Atoi x_page) ;;
  x_total <- header_first response "X-Total-Pages" ;;
  totalPages <- check "atoi" (strconv_Atoi x_total) ;;
  getUsers_loop fuel t a_str currentPage totalPages jsonResponse.

(** A [for ... range] loop over the elements of a slice. *)
Fixpoint for_each {A} (body : A -> M unit) (l : list A) : M unit :=
  match l with
  | [] => ret tt
  | x :: l' => body x ;;; for_each body l'
  end.

Definition displayAllUsers (u : GitlabUsers) : M unit :=
  for_each (fun v =>
    fmt_Println "-----------------------" ;;;
    fmt_Println ("ID : " ++ strconv_Itoa (ID v)) ;;;
    fmt_Println ("Name : " ++ Name v)) u.

(** The condition of the search loop, on one element. *)
Definition user_matches (s : string) (v : GitlabUser) : bool :=
  strings_Contains (Name v) s || strings_Contains (Username v) s
  || strings_Contains (Email v) s.

(** The first loop of [searchUsers], [for i, _ := range u], as state
    passing over the slice and [foundUsers]; [idx] are the indices
    still to visit.  Reading [u[i]] out of range would panic. *)
Fixpoint search_scan (s : string) (idx : list nat)
    (u : GitlabUsers) (foundUsers : list foundUser)
    : option (GitlabUsers * list foundUser) :=
  match idx with
  | [] => Some (u, foundUsers)
  | i :: idx' =>
      match u !! i with
      | Some v =>
          if user_matches s v then
            search_scan s idx' u
              (foundUsers ++ [mkFound (Name v) (ID v) (Username v) (Email v)])%list
          else search_scan s idx' u foundUsers
      | None => None
      end
  end.

(** [fmt.Printf("%v \t%v \t%v \t%v\n", ...)] on one match. *)
Definition row (f : foundUser) : string :=
  strconv_Itoa (fID f) ++ " " ++ tab ++ fName f ++ " " ++ tab
  ++ fUsername f ++ " " ++ tab ++ fEmail f ++ newline.

Definition no_users_found : string := "No users found" ++ newline.

Definition searchUsers (s : string) (u : GitlabUsers) : M unit :=
  scanned <- check "index out of range"
      (search_scan s (seq 0 (length u)) u []) ;;
  let foundUsers := snd scanned in
  if (0 <? length foundUsers)%nat then
    for_each (fun f => fmt_Print (row f)) foundUsers
  else fmt_Println "No users found".

(** [reader.ReadString('\n')] on standard input; its error is ignored
    by the program. *)
Definition reader_ReadString : M string :=
  fun w =>
    let '(line, rest) := ReadString (stdin w) in
    (Done line, mkWorld (requests w) (stdout w) rest).

Definition username_error (v : string) : string :=
  "error: " ++ v ++ " is not a valid username".
Definition email_error (v : string) : string :=
  "error: " ++ v ++ " is not a valid email address".

Definition createUser (t : string) : M unit :=
  fmt_Print "Name: " ;;;
  inputName <- reader_ReadString ;;
  let inputName := remove_newlines inputName in
  fmt_Print "Email: " ;;;
  inputEmail <- reader_ReadString ;;
  let inputEmail := remove_newlines inputEmail in
  fmt_Print "Username: " ;;;
  inputUserName <- reader_ReadString ;;
  let inputUserName := remove_newlines inputUserName in
  (if negb (MatchString isAlpha inputUserName)
   then log_Fatalf (username_error inputUserName) else ret tt) ;;;
  (if (254 <? String.length inputEmail)%nat
      || negb (MatchString rxEmail inputEmail)
   then log_Fatalf (email_error inputEmail) else ret tt) ;;;
  let payload : gmap string string :=
    <["email" := inputEmail]> (<["name" := inputName]>
    (<["username" := inputUserName]> (<["reset_password" := "true"]> ∅))) in
  bytesRepresentation <- check "json" (json_Marshal payload) ;;
  resp <- http_Post (GitlabURL ++ "users?private_token=" ++ t)
            "application/json" bytesRepresentation ;;
  fmt_Println (Status resp).

Definition blockUser (t u : string) : M unit :=
  resp <- http_Post (GitlabURL ++ "users/" ++ u ++ "/block?private_token=" ++ t)
            "application/x-www-form-urlencoded" "" ;;
  if String.eqb (Status resp) "201 Created" then
    fmt_Print ("UserID " ++ u ++ " has been blocked" ++ newline) ;;;
    fmt_Println (Status resp)
  else if String.eqb (Status resp) "404 Not Found" then
    fmt_Print ("ERROR: Unable to find UserID " ++ u ++ newline) ;;;
    fmt_Println (Status resp)
  else if String.eqb (Status resp) "403 Forbidden" then
    fmt_Print ("ERROR: UserID " ++ u ++ " is already blocked" ++ newline) ;;;
    fmt_Println (Status resp)
  else
    fmt_Print ("Error: something went wrong while trying to block UserID "
               ++ u ++ newline) ;;;
    fmt_Println (Status resp).

(** [main], after [flag.Parse] has filled in the flags. *)
Definition main (fuel : nat) (f : Flags) : M unit :=
  if negb (String.eqb (searchText f) "") then
    users <- getUsers fuel (token f) (active f) ;;
    users <- check "index out of range" (sort_Sort users) ;;
    searchUsers (searchText f) users
  else if negb (String.eqb (bu f) "") then
    blockUser (token f) (bu f)
  else if create f then
    createUser (token f)
  else
    users <- getUsers fuel (token f) (active f) ;;
    users <- check "index out of range" (sort_Sort users) ;;
    displayAllUsers users.
End Program.

(** ** The action selection, in the words of the specification *)

Inductive Action := ActSearch | ActBlock | ActCreate | ActList.

(** First match wins: search text set, then block id set, then create
    flag set, then the default. *)
Definition spec_action (f : Flags) : Action :=
  if decide (searchText f <> "") then ActSearch
  else if decide (bu f <> "") then ActBlock
  else if create f then ActCreate
  else ActList.


(** ** Reference notions for patterns *)

(** The language of a pattern: [matches r s] when the whole of [s] is
    a word of [r]. *)
Inductive matches : regex -> string -> Prop :=
| MEps : matches Eps ""
| MClass p c : p c = true -> matches (Class p) (String c "")
| MCat r1 r2 s1 s2 :
    matches r1 s1 -> matches r2 s2 -> matches (Cat r1 r2) (s1 ++ s2)
| MAltL r1 r2 s : matches r1 s -> matches (Alt r1 r2) s
| MAltR r1 r2 s : matches r2 s -> matches (Alt r1 r2) s
| MStarNil r : matches (Star r) ""
| MStarApp r s1 s2 :
    matches r s1 -> matches (Star r) s2 -> matches (Star r) (s1 ++ s2).

(** Every byte of the text satisfies [p]. *)
Fixpoint all_chars (p : ascii -> bool) (s : string) : bool :=
  match s with
  | EmptyString => true
  | String c s' => p c && all_chars p s'
  end.

(** Every class of the pattern is included in [q]. *)
Fixpoint classes_within (q : ascii -> bool) (r : regex) : Prop :=
  match r with
  | Void | Eps => True
  | Class p => forall c, p c = true -> q c = true
  | Cat r1 r2 | Alt r1 r2 => classes_within q r1 /\ classes_within q r2
  | Star r1 => classes_within q r1
  end.

(** The bytes of a host name: letters, digits, hyphen and dot. *)
Definition host_char (c : ascii) : bool :=
  alnum c || Ascii.eqb c "-" || Ascii.eqb c ".".

(** The number of occurrences of a byte in a text. *)
Fixpoint count_char (c : ascii) (s : string) : nat :=
  match s with
  | EmptyString => 0
  | String d s' => (if Ascii.eqb d c then 1 else 0) + count_char c s'
  end.

(** The text holds no line feed. *)
Definition no_newline (s : string) : bool :=
  all_chars (fun c => negb (Ascii.eqb c (ascii_of_nat 10))) s.

(** ** Reference notions for numbers *)

(** The value of a sequence of decimal digits read after [acc]. *)
Fixpoint eval_uint (d : Decimal.uint) (acc : Z) : Z :=
  match d with
  | Decimal.Nil => acc
  | Decimal.D0 d' => eval_uint d' (acc * 10 + 0)
  | Decimal.D1 d' => eval_uint d' (acc * 10 + 1)
  | Decimal.D2 d' => eval_uint d' (acc * 10 + 2)
  | Decimal.D3 d' => eval_uint d' (acc * 10 + 3)
  | Decimal.D4 d' => eval_uint d' (acc * 10 + 4)
  | Decimal.D5 d' => eval_uint d' (acc * 10 + 5)
  | Decimal.D6 d' => eval_uint d' (acc * 10 + 6)
  | Decimal.D7 d' => eval_uint d' (acc * 10 + 7)
  | Decimal.D8 d' => eval_uint d' (acc * 10 + 8)
  | Decimal.D9 d' => eval_uint d' (acc * 10 + 9)
  end.

(** ** Reference notions for sorting *)

(** Insertion of [x] into the reversed prefix [r] (largest identifier
    first): what one run of the inner loop of the insertion sort does to
    the elements before the one it moves. *)
Fixpoint ins (x : GitlabUser) (r : GitlabUsers) : GitlabUsers :=
  match r with
  | [] => [x]
  | y :: r' => if ID x <? ID y then y :: ins x r' else x :: y :: r'
  end.

(** The order of the reversed prefix: largest identifier first. *)
Definition ge_ID (x y : GitlabUser) : Prop := ID y <= ID x.

(** Every pair of adjacent users is in ascending order of identifier. *)
Definition ascending (l : GitlabUsers) : Prop :=
  forall i a b, l !! i = Some a -> l !! S i = Some b -> ID a <= ID b.

(** No adjacent pair is out of order according to [Less]. *)
Definition Less_sorted (l : GitlabUsers) : Prop :=
  forall i, (S i < length l)%nat -> Less l (S i) i = Some false.

(** ** Reference notions for searching *)

(** The needle occurs in the text: byte for byte, at some position. *)
Definition occurs_in (needle text : string) : Prop :=
  exists pre post, text = pre ++ needle ++ post.

(** The [foundUser] view of a user. *)
Definition project (v : GitlabUser) : foundUser :=
  mkFound (Name v) (ID v) (Username v) (Email v).

(** The matches of a search, as a filter of the input. *)
Definition matching (s : string) (u : GitlabUsers) : list foundUser :=
  map project (List.filter (user_matches s) u).

Definition found_ascending (l : list foundUser) : Prop :=
  forall i a b, l !! i = Some a -> l !! S i = Some b -> fID a <= fID b.

(** Standard output after a run has written [lines] to it. *)
Definition printed (w : World) (lines : list string) : World :=
  mkWorld (requests w) (stdout w ++ lines) (stdin w).

(** The three lines [displayAllUsers] prints for one user. *)
Definition display_block (v : GitlabUser) : list string :=
  ["-----------------------" ++ newline;
   ("ID : " ++ strconv_Itoa (ID v)) ++ newline;
   ("Name : " ++ Name v) ++ newline].

(** ** Reference notions for fetching *)

(** The request for page [k] of the listing. *)
Definition page_request (t a_str : string) (k : Z) : Request :=
  mkRequest GET
    (GitlabURL ++ "users?active=" ++ a_str
     ++ "&external=false&order_by=id&page=" ++ strconv_Itoa k
     ++ "&per_page=100&skip_ldap=false&sort=desc&with_custom_attributes=false&private_token="
     ++ t) "" "".

(** The world after one more request has been sent. *)
Definition sent (w : World) (reqs : list Request) : World :=
  mkWorld (requests w ++ reqs) (stdout w) (stdin w).

(** The listing endpoint serves the pages [pages] to the holder of token
    [t]: whatever was requested before, the request for page [k + 1] is
    answered with a body that decodes to the users of that page, and the
    first page carries the two pagination headers, [X-Page] reading 1 and
    [X-Total-Pages] reading the number of pages. *)
Definition serves (server : list Request -> Request -> option Response)
    (json_Unmarshal : string -> option GitlabUsers)
    (t : string) (a : bool) (pages : list GitlabUsers) : Prop :=
  forall k users, pages !! k = Some users ->
    forall h, exists resp data,
      server h (page_request t (strconv_FormatBool a) (Z.of_nat (S k)))
        = Some resp /\
      Body resp = Some data /\ json_Unmarshal data = Some users /\
      (k = 0%nat ->
       exists xp rp xt rt,
         Header resp !! "X-Page" = Some (xp :: rp) /\
         strconv_Atoi xp = Some 1 /\
         Header resp !! "X-Total-Pages" = Some (xt :: rt) /\
         strconv_Atoi xt = Some (Z.of_nat (length pages))).

(** The requests for pages [from], [from + 1], ... ([n] of them). *)
Definition page_requests (t a_str : string) (from n : nat) : list Request :=
  map (fun k => page_request t a_str (Z.of_nat k)) (seq from n).

(** ** Reference notions for blocking, creating and dispatching *)

(** The request of [blockUser]. *)
Definition block_request (t u : string) : Request :=
  mkRequest POST (GitlabURL ++ "users/" ++ u ++ "/block?private_token=" ++ t)
    "application/x-www-form-urlencoded" "".

(** The three lines typed at the console, each without its line feed,
    in the order [createUser] reads them, and the input left after them. *)
Definition input_name (w : World) : string :=
  remove_newlines (fst (ReadString (stdin w))).
Definition input_email (w : World) : string :=
  remove_newlines (fst (ReadString (snd (ReadString (stdin w))))).
Definition input_username (w : World) : string :=
  remove_newlines
    (fst (ReadString (snd (ReadString (snd (ReadString (stdin w))))))).

(** The world once the three fields have been asked for and read. *)
Definition prompted (w : World) : World :=
  mkWorld (requests w)
    (stdout w ++ ["Name: "; "Email: "; "Username: "])
    (snd (ReadString (snd (ReadString (snd (ReadString (stdin w))))))).

(** The payload and the request of [createUser]. *)
Definition create_payload (w : World) : gmap string string :=
  <["email" := input_email w]> (<["name" := input_name w]>
  (<["username" := input_username w]> (<["reset_password" := "true"]> ∅))).

Definition create_request (t body : string) : Request :=
  mkRequest POST (GitlabURL ++ "users?private_token=" ++ t)
    "application/json" body.

(** The four actions, as the specification lists them. *)
Definition selects (f : Flags) (a : Action) : Prop :=
  match a with
  | ActSearch => searchText f <> ""
  | ActBlock => searchText f = "" /\ bu f <> ""
  | ActCreate => searchText f = "" /\ bu f = "" /\ create f = true
  | ActList => searchText f = "" /\ bu f = "" /\ create f = false
  end.

Definition run_action (server : list Request -> Request -> option Response)
    (json_Unmarshal : string -> option GitlabUsers)
    (json_Marshal : gmap string string -> option string)
    (a : Action) (fuel : nat) (f : Flags) : M unit :=
  match a with
  | ActSearch =>
      users <- getUsers server json_Unmarshal fuel (token f) (active f) ;;
      users <- check "index out of range" (sort_Sort users) ;;
      searchUsers (searchText f) users
  | ActBlock => blockUser server (token f) (bu f)
  | ActCreate => createUser server json_Marshal (token f)
  | ActList =>
      users <- getUsers server json_Unmarshal fuel (token f) (active f) ;;
      users <- check "index out of range" (sort_Sort users) ;;
      displayAllUsers users
  end.

(** The page counter a response carries under the header [k], when the
    header is there and its first value is a decimal integer. *)
Definition parsed_header (resp : Response) (k : string) : option Z :=
  match Header resp !! k with
  | Some (v :: _) => strconv_Atoi v
  | _ => None
  end.

(** The requests for the [n] pages that follow page [cur]. *)
Definition later_requests (t a_str : string) (cur : Z) (n : nat)
    : list Request :=
  map (fun k => page_request t a_str (cur + 1 + Z.of_nat k)) (seq 0 n).

(** ** Sample data *)

Definition jane : GitlabUser :=
  mkUser 1 "Jane Doe" "jdoe" "active" "" "" "" "" "" "jane.smith@x.com" ""
    false false.
Definition bob : GitlabUser :=
  mkUser 2 "Bob Roe" "bob" "active" "" "" "" "" "" "bob@x.com" "" false false.
Definition carol : GitlabUser :=
  mkUser 3 "Carol Smith" "carol" "blocked" "" "" "" "" "" "carol@x.com" ""
    false true.

(** A remote end with a listing of two pages and three accounts to
    block.  Bodies are named rather than spelled out; [sample_Unmarshal]
    decodes the names. *)
Definition sample_headers : gmap string (list string) :=
  <["X-Page" := ["1"]]> (<["X-Total-Pages" := ["2"]]> ∅).

Definition sample_server (h : list Request) (r : Request) : option Response :=
  if String.eqb (req_url r) (req_url (page_request "tok" "true" 1)) then
    Some (mkResponse "200 OK" sample_headers (Some "page one"))
  else if String.eqb (req_url r) (req_url (page_request "tok" "true" 2)) then
    Some (mkResponse "200 OK" sample_headers (Some "page two"))
  else if String.eqb (req_url r) (req_url (block_request "tok" "7")) then
    Some (mkResponse "201 Created" ∅ (Some ""))
  else if String.eqb (req_url r) (req_url (block_request "tok" "8")) then
    Some (mkResponse "404 Not Found" ∅ (Some ""))
  else if String.eqb (req_url r) (req_url (block_request "tok" "9")) then
    Some (mkResponse "403 Forbidden" ∅ (Some ""))
  else Some (mkResponse "500 Internal Server Error" ∅ (Some "")).

Definition sample_Unmarshal (data : string) : option GitlabUsers :=
  if String.eqb data "page one" then Some [carol; bob]
  else if String.eqb data "page two" then Some [jane]
  else None.

Definition sample_Marshal (payload : gmap string string) : option string :=
  Some "{}".

(** Remote ends for the edge cases of the listing: one page only, no
    pagination headers, nothing reachable, and a second page that is
    not reachable. *)
Definition single_server (h : list Request) (r : Request) : option Response :=
  Some (mkResponse "200 OK"
          (<["X-Page" := ["1"]]> (<["X-Total-Pages" := ["1"]]> ∅))
          (Some "page two")).

Definition headerless_server (h : list Request) (r : Request)
    : option Response :=
  Some (mkResponse "200 OK" (<["X-Page" := ["one"]]> ∅) (Some "page two")).

Definition down_server (h : list Request) (r : Request) : option Response :=
  None.

Definition flaky_server (h : list Request) (r : Request) : option Response :=
  if String.eqb (req_url r) (req_url (page_request "tok" "true" 1)) then
    Some (mkResponse "200 OK" sample_headers (Some "page one"))
  else None.

(** A remote end that declares page 0 of 1 as the current page. *)
Definition zero_server (h : list Request) (r : Request) : option Response :=
  Some (mkResponse "200 OK"
          (<["X-Page" := ["0"]]> (<["X-Total-Pages" := ["1"]]> ∅))
          (Some "page two")).

(** A console on which a name, an email and a login handle are typed. *)
Definition console (name email username : string) : World :=
  mkWorld [] []
    (name ++ newline ++ email ++ newline ++ username ++ newline).

(** * Properties *)

(** ** Strings *)

#[local] Arguments String.append !s1 s2 : simpl nomatch.

Lemma append_nil_r (s : string) : s ++ "" = s.
Proof. induction s as [|c s IH]; simpl; [reflexivity | now rewrite IH]. Qed.

Lemma append_assoc (a b c : string) : (a ++ b) ++ c = a ++ b ++ c.
Proof. induction a as [|x a IH]; simpl; [reflexivity | now rewrite IH]. Qed.

Lemma HasPrefix_spec (s p : string) :
  strings_HasPrefix s p = true <-> exists post, s = p ++ post.
Proof.
  revert s. induction p as [|c p IH]; intros s; simpl.
  - split; [intros _; now exists s | reflexivity].
  - destruct s as [|d s].
    + split; [discriminate | intros [post Hp]; discriminate].
    + rewrite andb_true_iff, IH, Ascii.eqb_eq. split.
      * intros [-> [post ->]]. now exists post.
      * intros [post Hp]. injection Hp as -> ->. split; [reflexivity | now exists post].
Qed.

(** [strings.Contains] is plain substring containment: the needle occurs
    byte for byte at some position. *)
Lemma Contains_spec (s sub : string) :
  strings_Contains s sub = true <-> exists pre post, s = pre ++ sub ++ post.
Proof.
  induction s as [|c s IH]; simpl.
  - rewrite orb_false_r, HasPrefix_spec. split.
    + intros [post Hp]. now exists "", post.
    + intros [pre [post Hp]]. destruct pre; [now exists post | discriminate].
  - rewrite orb_true_iff, IH, HasPrefix_spec. split.
    + intros [[post Hp] | [pre [post Hp]]].
      * now exists "", post.
      * exists (String c pre), post. simpl. now rewrite Hp.
    + intros [pre [post Hp]]. destruct pre as [|d pre]; simpl in Hp.
      * left. now exists post.
      * right. injection Hp as -> ->. now exists pre, post.
Qed.

(** ** Patterns *)

Section Patterns.
Implicit Types (r : regex) (s : string) (c : ascii).

Lemma append_eq_nil s1 s2 : s1 ++ s2 = "" -> s1 = "" /\ s2 = "".
Proof. destruct s1; cbn; [now intros -> | discriminate]. Qed.

Lemma matches_cat_inv r1 r2 s :
  matches (Cat r1 r2) s ->
  exists s1 s2, s = s1 ++ s2 /\ matches r1 s1 /\ matches r2 s2.
Proof. intros H. inversion H; subst. eauto. Qed.

Lemma matches_alt_inv r1 r2 s :
  matches (Alt r1 r2) s -> matches r1 s \/ matches r2 s.
Proof. intros H. inversion H; subst; auto. Qed.

Lemma matches_class_inv p s :
  matches (Class p) s -> exists c, s = String c "" /\ p c = true.
Proof. intros H. inversion H; subst. eauto. Qed.

Lemma nullable_spec r : nullable r = true <-> matches r "".
Proof.
  induction r as [| |p|r1 IH1 r2 IH2|r1 IH1 r2 IH2|r IH]; cbn [nullable].
  - split; [discriminate | intros H; inversion H].
  - split; [constructor | reflexivity].
  - split; [discriminate | intros H; inversion H].
  - rewrite andb_true_iff, IH1, IH2. split.
    + intros [H1 H2]. apply (MCat r1 r2 "" "" H1 H2).
    + intros H. apply matches_cat_inv in H as [s1 [s2 [Heq [H1 H2]]]].
      symmetry in Heq. apply append_eq_nil in Heq as [-> ->]. now split.
  - rewrite orb_true_iff, IH1, IH2. split.
    + intros [H|H]; [now apply MAltL | now apply MAltR].
    + apply matches_alt_inv.
  - split; [constructor | reflexivity].
Qed.

(** A non-empty word of [Star r] starts with a non-empty word of [r]. *)
Lemma star_cons r c s :
  matches (Star r) (String c s) ->
  exists s1 s2, s = s1 ++ s2 /\ matches r (String c s1) /\ matches (Star r) s2.
Proof.
  intros H. remember (Star r) as r' eqn:Er. remember (String c s) as t eqn:Et.
  revert c s Et.
  induction H as [| | | | | |r0 s1 s2 H1 _ H2 IH2]; intros c' s' Et;
    try discriminate.
  injection Er as ->.
  destruct s1 as [|d s1]; cbn in Et.
  - now apply IH2.
  - injection Et as -> <-. now exists s1, s2.
Qed.

Lemma deriv_spec r c s : matches (deriv c r) s <-> matches r (String c s).
Proof.
  revert s. induction r as [| |p|r1 IH1 r2 IH2|r1 IH1 r2 IH2|r IH];
    intros s; cbn [deriv].
  - split; intros H; inversion H.
  - split; intros H; inversion H.
  - destruct (p c) eqn:Hp; split; intros H.
    + inversion H; subst. now constructor.
    + apply matches_class_inv in H as [d [[= -> ->] _]]. constructor.
    + inversion H.
    + apply matches_class_inv in H as [d [[= -> ->] Hd]]. congruence.
  - assert (Hcat : matches (Cat (deriv c r1) r2) s ->
                   matches (Cat r1 r2) (String c s)).
    { intros H. apply matches_cat_inv in H as [s1 [s2 [-> [H1 H2]]]].
      apply IH1 in H1. apply (MCat r1 r2 (String c s1) s2 H1 H2). }
    assert (Hsplit : matches (Cat r1 r2) (String c s) ->
              matches (Cat (deriv c r1) r2) s
              \/ (nullable r1 = true /\ matches (deriv c r2) s)).
    { intros H. apply matches_cat_inv in H as [s1 [s2 [Heq [H1 H2]]]].
      destruct s1 as [|d s1]; cbn in Heq.
      - right. subst s2. split; [now apply nullable_spec | now apply IH2].
      - left. injection Heq as <- ->.
        constructor; [now apply IH1 | assumption]. }
    destruct (nullable r1) eqn:Hn.
    + split.
      * intros H. apply matches_alt_inv in H as [H|H]; [now apply Hcat|].
        apply (MCat r1 r2 "" (String c s)); [now apply nullable_spec|].
        now apply IH2.
      * intros H. destruct (Hsplit H) as [H'|[_ H']];
          [now apply MAltL | now apply MAltR].
    + split; [exact Hcat|].
      intros H. destruct (Hsplit H) as [H'|[H' _]]; [assumption | discriminate].
  - split; intros H; apply matches_alt_inv in H as [H|H].
    + apply MAltL. now apply IH1.
    + apply MAltR. now apply IH2.
    + apply MAltL. now apply IH1.
    + apply MAltR. now apply IH2.
  - split.
    + intros H. apply matches_cat_inv in H as [s1 [s2 [-> [H1 H2]]]].
      apply IH in H1. apply (MStarApp r (String c s1) s2 H1 H2).
    + intros H. apply star_cons in H as [s1 [s2 [-> [H1 H2]]]].
      constructor; [now apply IH | assumption].
Qed.

(** The matcher decides the language of the pattern. *)
Lemma MatchString_spec r s : MatchString r s = true <-> matches r s.
Proof.
  revert r. induction s as [|c s IH]; intros r; cbn [MatchString].
  - apply nullable_spec.
  - rewrite IH. apply deriv_spec.
Qed.

Lemma star_class p s : matches (Star (Class p)) s <-> all_chars p s = true.
Proof.
  split.
  - intros H. remember (Star (Class p)) as r eqn:Er.
    induction H as [| | | | | |r0 s1 s2 H1 _ H2 IH2]; try discriminate;
      [reflexivity|].
    injection Er as ->. apply matches_class_inv in H1 as [c [-> Hc]]. cbn.
    rewrite Hc. now apply IH2.
  - induction s as [|c s IH]; cbn [all_chars]; [constructor|].
    intros [Hc Hs]%andb_true_iff.
    apply (MStarApp (Class p) (String c "") s); [now constructor | now apply IH].
Qed.

(** [^[A-Za-z]+$]: one or more bytes, all of them letters. *)
Lemma isAlpha_spec s :
  MatchString isAlpha s = true <-> s <> "" /\ all_chars alpha s = true.
Proof.
  rewrite MatchString_spec. unfold isAlpha, Plus. split.
  - intros H. apply matches_cat_inv in H as [s1 [s2 [-> [H1 H2]]]].
    apply matches_class_inv in H1 as [c [-> Hc]]. cbn.
    split; [discriminate|]. rewrite Hc. now apply star_class.
  - intros [Hne Hall]. destruct s as [|c s]; [contradiction|].
    cbn in Hall. apply andb_true_iff in Hall as [Hc Hs].
    apply (MCat (Class alpha) _ (String c "") s);
      [now constructor | now apply star_class].
Qed.
End Patterns.

(** ** Integers *)

Lemma in_int_spec (z : Z) : in_int z = true <-> minInt <= z <= maxInt.
Proof. unfold in_int. rewrite andb_true_iff, !Z.leb_le. reflexivity. Qed.

Lemma wrap64_in_int (z : Z) : in_int z = true -> wrap64 z = z.
Proof.
  rewrite in_int_spec. unfold wrap64, minInt, maxInt. intros Hz.
  rewrite Z.mod_small; lia.
Qed.

Lemma Atoi_in_int (s : string) (v : Z) :
  strconv_Atoi s = Some v -> in_int v = true.
Proof.
  unfold strconv_Atoi. destruct s as [|c s]; [discriminate|].
  cbv zeta.
  destruct (if (Ascii.eqb c "-" || Ascii.eqb c "+")%bool then s else String c s);
    [discriminate|].
  destruct (parse_digits _ _) as [n|]; [|discriminate].
  destruct (in_int _) eqn:E; [|discriminate].
  now intros [= <-].
Qed.

Lemma parse_digits_uint d acc :
  parse_digits (NilEmpty.string_of_uint d) acc = Some (eval_uint d acc).
Proof.
  revert acc. induction d as [|d IH|d IH|d IH|d IH|d IH|d IH|d IH|d IH|d IH|d IH];
    intros acc; cbn [NilEmpty.string_of_uint parse_digits eval_uint];
    [reflexivity | ..];
    (match goal with
     | |- context [digit_of ?c] =>
         change (digit_of c) with (Some (Z.of_nat (nat_of_ascii c) - 48))
     end); cbn [nat_of_ascii]; apply IH.
Qed.

Lemma eval_uint_pos d acc :
  eval_uint d (Z.pos acc) = Z.pos (Pos.of_uint_acc d acc).
Proof.
  revert acc. induction d as [|d IH|d IH|d IH|d IH|d IH|d IH|d IH|d IH|d IH|d IH];
    intros acc; cbn [eval_uint Pos.of_uint_acc]; [reflexivity | ..];
    rewrite <- IH; f_equal; lia.
Qed.

Lemma eval_uint_0 d : eval_uint d 0 = Z.of_N (Pos.of_uint d).
Proof.
  induction d as [|d IH|d IH|d IH|d IH|d IH|d IH|d IH|d IH|d IH|d IH];
    cbn [eval_uint Pos.of_uint]; [reflexivity | exact IH | ..];
    cbn [Z.mul Z.add Z.of_N]; apply eval_uint_pos.
Qed.

Lemma parse_digits_to_uint p :
  Pos.to_uint p <> Decimal.Nil /\
  NilZero.string_of_uint (Pos.to_uint p)
    = NilEmpty.string_of_uint (Pos.to_uint p) /\
  parse_digits (NilEmpty.string_of_uint (Pos.to_uint p)) 0 = Some (Z.pos p).
Proof.
  assert (Hne : Pos.to_uint p <> Decimal.Nil).
  { intros Hnil. pose proof (DecimalPos.Unsigned.of_to p) as H.
    rewrite Hnil in H. discriminate. }
  split; [exact Hne|]. split.
  - now destruct (Pos.to_uint p).
  - rewrite parse_digits_uint, eval_uint_0, DecimalPos.Unsigned.of_to.
    reflexivity.
Qed.

(** What [strconv.Itoa] prints, [strconv.Atoi] reads back. *)
Lemma Atoi_Itoa (z : Z) :
  in_int z = true -> strconv_Atoi (strconv_Itoa z) = Some z.
Proof.
  intros Hz. unfold strconv_Itoa. destruct z as [|p|p]; [reflexivity | |];
    cbn [Z.to_int NilZero.string_of_int];
    destruct (parse_digits_to_uint p) as [Hne [Hs Hp]].
  - rewrite Hs. unfold strconv_Atoi.
    destruct (Pos.to_uint p) as [|d|d|d|d|d|d|d|d|d|d]; [contradiction | ..];
      cbn [NilEmpty.string_of_uint] in *;
      cbn [Ascii.eqb Bool.eqb orb]; rewrite Hp, Hz; reflexivity.
  - unfold strconv_Atoi. cbn [Ascii.eqb Bool.eqb orb]. rewrite Hs.
    destruct (NilEmpty.string_of_uint (Pos.to_uint p)) eqn:E.
    + destruct (Pos.to_uint p); [contradiction | discriminate..].
    + rewrite Hp. change (- Z.pos p) with (Z.neg p). now rewrite Hz.
Qed.

(** Inside the loop the increment never wraps: the counter is below a
    bound that is itself an [int]. *)
Lemma increment_exact (currentPage totalPages : Z) :
  in_int currentPage = true -> in_int totalPages = true ->
  currentPage < totalPages ->
  wrap64 (currentPage + 1) = currentPage + 1.
Proof.
  rewrite !in_int_spec. intros Hc Ht Hlt.
  apply wrap64_in_int, in_int_spec. unfold minInt, maxInt in *. lia.
Qed.

(** ** Adjacent pairs and [Sorted] *)

Section Adjacent.
Local Open Scope list_scope.
Context {A : Type} (R : A -> A -> Prop).

Lemma Sorted_lookup (l : list A) i a b :
  Sorted R l -> l !! i = Some a -> l !! S i = Some b -> R a b.
Proof.
  intros Hs. revert i. induction Hs as [|y l Hs IH Hhd]; intros i Ha Hb;
    [discriminate|].
  destruct i as [|i]; cbn in *.
  - injection Ha as ->. destruct l as [|z l]; [discriminate|].
    cbn in Hb. injection Hb as ->. now inversion Hhd.
  - now apply (IH i).
Qed.

Lemma lookup_Sorted (l : list A) :
  (forall i a b, l !! i = Some a -> l !! S i = Some b -> R a b) ->
  Sorted R l.
Proof.
  induction l as [|x l IH]; intros Hadj; constructor.
  - apply IH. intros i a b Ha Hb. apply (Hadj (S i) a b); assumption.
  - destruct l as [|y l]; constructor. now apply (Hadj 0%nat x y).
Qed.

Lemma StronglySorted_filter (f : A -> bool) (l : list A) :
  StronglySorted R l -> StronglySorted R (List.filter f l).
Proof.
  induction 1 as [|x l Hs IH Hall]; cbn; [constructor|].
  destruct (f x); [|assumption]. constructor; [assumption|].
  rewrite List.Forall_forall in *. intros y Hy.
  apply Hall. apply filter_In in Hy. tauto.
Qed.
End Adjacent.

(** ** Sorting *)

Section SortFacts.
Local Open Scope list_scope.
Implicit Types (s pre post r : GitlabUsers) (x y : GitlabUser).

Lemma lookup_second pre y x post :
  (pre ++ y :: x :: post) !! S (length pre) = Some x.
Proof.
  replace (pre ++ y :: x :: post) with ((pre ++ [y]) ++ x :: post)
    by now rewrite <- app_assoc.
  apply list_lookup_middle. rewrite length_app. simpl. lia.
Qed.

Lemma Less_adjacent pre y x post :
  Less (pre ++ y :: x :: post) (S (length pre)) (length pre)
  = Some (ID x <? ID y).
Proof.
  unfold Less, GitlabUsers_sort.
  rewrite lookup_second, list_lookup_middle by reflexivity.
  reflexivity.
Qed.

Lemma Swap_adjacent pre y x post :
  Swap (pre ++ y :: x :: post) (S (length pre)) (length pre)
  = Some (pre ++ x :: y :: post).
Proof.
  unfold Swap, GitlabUsers_sort.
  rewrite lookup_second, list_lookup_middle by reflexivity.
  f_equal.
  rewrite (insert_app_r_alt pre _ (S (length pre))) by lia.
  replace (S (length pre) - length pre)%nat with 1%nat by lia. simpl.
  rewrite (insert_app_r_alt pre _ (length pre)) by lia.
  replace (length pre - length pre)%nat with 0%nat by lia. reflexivity.
Qed.

(** One run of the inner loop inserts the element at index [j] into
    the [j] elements before it. *)
Lemma insert_down_ins r x post :
  insert_down (reverse r ++ x :: post) 0 (length r)
  = Some (reverse (ins x r) ++ post).
Proof.
  revert post. induction r as [|y r IH]; intros post.
  - reflexivity.
  - cbn [length insert_down]. rewrite reverse_cons, <- app_assoc. cbn [app].
    replace (0 <? S (length r))%nat with true
      by (symmetry; apply Nat.ltb_lt; lia).
    rewrite <- (length_reverse r).
    rewrite Less_adjacent. cbn [ins].
    destruct (ID x <? ID y).
    + rewrite Swap_adjacent, length_reverse, IH.
      now rewrite reverse_cons, <- app_assoc.
    + now rewrite !reverse_cons, <- !app_assoc.
Qed.

Lemma insertion_from_ins post r :
  insertion_from (length post) (reverse r ++ post) 0 (length r)
  = Some (reverse (fold_left (fun r x => ins x r) post r)).
Proof.
  revert r. induction post as [|x post IH]; intros r.
  - cbn. now rewrite app_nil_r.
  - cbn [length insertion_from fold_left].
    rewrite insert_down_ins.
    assert (Hlen : length (ins x r) = S (length r)).
    { clear. induction r as [|y r IH]; cbn; [reflexivity|].
      destruct (ID x <? ID y); cbn; now rewrite ?IH. }
    rewrite <- Hlen. apply IH.
Qed.

(** [sort.Sort] never panics on a [GitlabUsers], and its result is the
    list built by inserting the elements one after the other. *)
Lemma sort_Sort_ins s :
  sort_Sort s = Some (reverse (fold_left (fun r x => ins x r) s [])).
Proof.
  unfold sort_Sort, insertionSort. destruct s as [|x s]; [reflexivity|].
  cbn [Len GitlabUsers_sort length fold_left ins].
  replace (S (length s) - (0 + 1))%nat with (length s) by lia.
  apply (insertion_from_ins s [x]).
Qed.

Lemma ins_perm x r : ins x r ≡ₚ x :: r.
Proof.
  induction r as [|y r IH]; cbn; [reflexivity|].
  destruct (ID x <? ID y); [|reflexivity].
  rewrite IH. apply perm_swap.
Qed.

Lemma fold_ins_perm post r :
  fold_left (fun r x => ins x r) post r ≡ₚ post ++ r.
Proof.
  revert r. induction post as [|x post IH]; intros r; cbn; [reflexivity|].
  rewrite IH, ins_perm. symmetry. apply Permutation_middle.
Qed.

(** [Swap] on any two valid indices permutes the slice. *)
Lemma insert_perm s j a b :
  s !! j = Some b -> a :: s ≡ₚ b :: <[j := a]> s.
Proof.
  revert j. induction s as [|c s IH]; intros [|j] Hj; try discriminate.
  - injection Hj as ->. cbn. apply perm_swap.
  - cbn in *. rewrite (perm_swap c a), (IH j Hj). apply perm_swap.
Qed.

Lemma swap_perm_lt s i j a b :
  (i < j)%nat -> s !! i = Some a -> s !! j = Some b ->
  <[j := a]> (<[i := b]> s) ≡ₚ s.
Proof.
  revert i j. induction s as [|c s IH]; intros [|i] [|j] Hlt Hi Hj;
    try discriminate; try lia; cbn in *.
  - injection Hi as ->. symmetry. now apply insert_perm.
  - apply perm_skip, (IH i j); [lia | assumption..].
Qed.

Lemma Swap_perm s i j s' : Swap s i j = Some s' -> s ≡ₚ s'.
Proof.
  unfold Swap, GitlabUsers_sort.
  destruct (s !! i) as [a|] eqn:Hi; [|discriminate].
  destruct (s !! j) as [b|] eqn:Hj; [|discriminate].
  intros [= <-]. symmetry.
  destruct (Nat.lt_trichotomy i j) as [Hlt | [-> | Hgt]].
  - now apply swap_perm_lt.
  - rewrite list_insert_insert_eq.
    rewrite list_insert_id; [reflexivity | congruence].
  - rewrite list_insert_insert_ne by lia. now apply swap_perm_lt.
Qed.

Lemma run_swaps_perm swaps s s' : run_swaps s swaps = Some s' -> s ≡ₚ s'.
Proof.
  revert s. induction swaps as [|[i j] swaps IH]; intros s; cbn [run_swaps].
  - now intros [= ->].
  - destruct (Swap s i j) as [s1|] eqn:Hs; [|discriminate].
    intros Hrun. rewrite (Swap_perm _ _ _ _ Hs). now apply IH.
Qed.

Lemma ins_HdRel y x r :
  HdRel ge_ID y r -> ge_ID y x -> HdRel ge_ID y (ins x r).
Proof.
  intros Hr Hx. destruct r as [|z r]; cbn.
  - now constructor.
  - destruct (ID x <? ID z); constructor; [|assumption].
    now inversion Hr.
Qed.

Lemma ins_Sorted x r : Sorted ge_ID r -> Sorted ge_ID (ins x r).
Proof.
  induction 1 as [|y r Hs IH Hhd]; cbn.
  - repeat constructor.
  - destruct (ID x <? ID y) eqn:E.
    + constructor; [assumption|].
      apply ins_HdRel; [assumption|]. unfold ge_ID. apply Z.ltb_lt in E. lia.
    + constructor; [now constructor|].
      constructor. unfold ge_ID. apply Z.ltb_ge in E. lia.
Qed.

Lemma fold_ins_Sorted post r :
  Sorted ge_ID r -> Sorted ge_ID (fold_left (fun r x => ins x r) post r).
Proof.
  revert r. induction post as [|x post IH]; intros r Hr; cbn;
    [assumption | now apply IH, ins_Sorted].
Qed.

Lemma reverse_ascending r : Sorted ge_ID r -> ascending (reverse r).
Proof.
  intros Hs i a b Ha Hb.
  apply reverse_lookup_Some in Ha as [Ha Hi].
  apply reverse_lookup_Some in Hb as [Hb Hi'].
  replace (length r - S i)%nat with (S (length r - S (S i))) in Ha by lia.
  apply (Sorted_lookup ge_ID _ _ _ _ Hs Hb Ha).
Qed.

(** A slice with no adjacent pair out of order according to [Less]
    is in ascending order of identifier. *)
Lemma Less_sorted_ascending s : Less_sorted s -> ascending s.
Proof.
  intros Hs i a b Ha Hb.
  assert (Hlen : (S i < length s)%nat) by now apply lookup_lt_Some in Hb.
  specialize (Hs i Hlen). unfold Less, GitlabUsers_sort in Hs.
  rewrite Ha, Hb in Hs. injection Hs as Hs. apply Z.ltb_ge in Hs. lia.
Qed.
Lemma ascending_Less_sorted s : ascending s -> Less_sorted s.
Proof.
  intros Hasc i Hi. unfold Less, GitlabUsers_sort.
  destruct (lookup_lt_is_Some_2 s (S i) Hi) as [b Hb].
  destruct (lookup_lt_is_Some_2 s i ltac:(lia)) as [a Ha].
  rewrite Hb, Ha. f_equal. apply Z.ltb_ge. now apply (Hasc i).
Qed.
End SortFacts.

(** ** Searching *)

Section SearchFacts.
Local Open Scope list_scope.
Implicit Types (u : GitlabUsers) (v : GitlabUser) (w : World).

Lemma user_matches_spec s v :
  user_matches s v = true <->
  occurs_in s (Name v) \/ occurs_in s (Username v) \/ occurs_in s (Email v).
Proof.
  unfold user_matches, occurs_in.
  rewrite !orb_true_iff, !Contains_spec. tauto.
Qed.

Lemma user_matches_project s v v' :
  project v = project v' -> user_matches s v = user_matches s v'.
Proof. unfold project, user_matches. now intros [= -> _ -> ->]. Qed.

(** The scan visits the indices in order, keeps the slice as it is and
    appends the view of every matching user. *)
Lemma search_scan_from s pre rest acc :
  search_scan s (seq (length pre) (length rest)) (pre ++ rest) acc
  = Some (pre ++ rest, acc ++ matching s rest).
Proof.
  revert pre acc. induction rest as [|v rest IH]; intros pre acc.
  - cbn. now rewrite !app_nil_r.
  - cbn [length seq search_scan].
    rewrite list_lookup_middle by reflexivity.
    replace (pre ++ v :: rest) with ((pre ++ [v]) ++ rest)
      by now rewrite <- app_assoc.
    replace (S (length pre)) with (length (pre ++ [v]))
      by (rewrite length_app; cbn; lia).
    unfold matching. cbn [List.filter].
    destruct (user_matches s v); rewrite IH;
      unfold matching, project; cbn [map]; now rewrite <- ?app_assoc.
Qed.

Lemma search_scan_spec s u :
  search_scan s (seq 0 (length u)) u [] = Some (u, matching s u).
Proof. apply (search_scan_from s [] u []). Qed.

Lemma for_each_print {A} (f : A -> string) (l : list A) w :
  for_each (fun x => fmt_Print (f x)) l w = (Done tt, printed w (map f l)).
Proof.
  revert w. induction l as [|x l IH]; intros w; cbn [for_each map].
  - unfold ret, printed. rewrite app_nil_r. now destruct w.
  - unfold bind, fmt_Print at 1. rewrite IH. unfold printed. cbn.
    now rewrite <- app_assoc.
Qed.

(** What [searchUsers] prints: one row per match, in order, or the
    fixed message when there is no match. *)
Lemma searchUsers_spec s u w :
  searchUsers s u w =
  (Done tt, printed w (match matching s u with
                       | [] => [no_users_found]
                       | found => map row found
                       end)).
Proof.
  unfold searchUsers, bind, check. rewrite search_scan_spec.
  unfold ret. cbn [snd].
  destruct (matching s u) as [|f found] eqn:E.
  - reflexivity.
  - cbn [length Nat.ltb Nat.leb]. apply for_each_print.
Qed.

Lemma matching_nil s u :
  matching s u = [] <-> forall v, v ∈ u -> user_matches s v = false.
Proof.
  unfold matching. induction u as [|v u IH]; cbn [List.filter map].
  - split; [intros _ v Hv; inversion Hv | reflexivity].
  - destruct (user_matches s v) eqn:E; cbn [map].
    + split; [discriminate|]. intros Hall.
      rewrite Hall in E by constructor. discriminate.
    + rewrite IH. split.
      * intros Hall v' Hv'. inversion Hv'; subst; auto.
      * intros Hall v' Hv'. apply Hall. now constructor.
Qed.

Lemma elem_of_matching s u v :
  v ∈ u -> (project v ∈ matching s u <-> user_matches s v = true).
Proof.
  intros Hv. unfold matching.
  rewrite list_elem_of_In, in_map_iff. split.
  - intros [v' [Hp Hin]]. apply filter_In in Hin as [_ Hm].
    now rewrite (user_matches_project s v v').
  - intros Hm. exists v. split; [reflexivity|].
    apply filter_In. split; [now apply list_elem_of_In | assumption].
Qed.

(** A data row is never mistaken for the fixed message: every row
    holds a tab. *)
Lemma row_not_message f : row f <> no_users_found.
Proof.
  intros Heq.
  assert (Hrow : strings_Contains (row f) tab = true).
  { apply Contains_spec. exists (strconv_Itoa (fID f) ++ " ")%string.
    eexists. unfold row. rewrite append_assoc. reflexivity. }
  rewrite Heq in Hrow. vm_compute in Hrow. discriminate.
Qed.
End SearchFacts.

(** ** Claims on sorting *)

Section SortClaims.
Local Open Scope list_scope.

(** C5. Sorting with the program's comparator never fails, and in its
    result every pair of adjacent users [(a, b)] satisfies
    [ID a <= ID b]: the users are in ascending order of identifier. *)
Theorem sort_Sort_ascending (u : GitlabUsers) :
  exists sorted,
    sort_Sort u = Some sorted /\
    (forall i a b,
       sorted !! i = Some a -> sorted !! S i = Some b -> ID a <= ID b) /\
    Less_sorted sorted.
Proof.
  eexists. split; [apply sort_Sort_ins|].
  assert (Hasc : ascending
            (reverse (fold_left (fun r x => ins x r) u [])))
    by (apply reverse_ascending, fold_ins_Sorted; constructor).
  split; [exact Hasc | now apply ascending_Less_sorted].
Qed.

(** C8. Sorting is a permutation: the sorted slice holds exactly the
    users of the input, each as many times as the input does; and the
    same is true of any reordering made of calls to [Swap] alone. *)
Theorem sort_Sort_permutation (u : GitlabUsers) :
  (exists sorted, sort_Sort u = Some sorted /\ Permutation u sorted) /\
  (forall swaps u', run_swaps u swaps = Some u' -> Permutation u u').
Proof.
  split.
  - eexists. split; [apply sort_Sort_ins|].
    rewrite reverse_Permutation, fold_ins_perm. now rewrite app_nil_r.
  - intros swaps u'. apply run_swaps_perm.
Qed.
End SortClaims.

Lemma sort_Sort_ascending_witness :
  sort_Sort [carol; jane; bob] = Some [jane; bob; carol] /\
  ID jane <= ID bob /\ ID bob <= ID carol.
Proof.
  destruct (sort_Sort_ascending [carol; jane; bob]) as [sorted [Hs [Hadj _]]].
  vm_compute in Hs. injection Hs as <-.
  split; [reflexivity|].
  split; [apply (Hadj 0%nat jane bob) | apply (Hadj 1%nat bob carol)];
    reflexivity.
Defined.

Lemma sort_Sort_permutation_witness :
  Permutation [carol; jane; bob] [jane; bob; carol] /\
  Permutation [carol; jane; bob] [bob; jane; carol].
Proof.
  destruct (sort_Sort_permutation [carol; jane; bob]) as [[sorted [Hs Hp]] Hsw].
  vm_compute in Hs. injection Hs as <-.
  split; [exact Hp|].
  apply (Hsw [(0, 2)]%nat). reflexivity.
Defined.

(** ** Claims on searching *)

Section SearchClaims.
Local Open Scope list_scope.

Lemma matching_sublist s (u : GitlabUsers) :
  sublist (matching s u) (map project u).
Proof.
  unfold matching. induction u as [|v u IH]; cbn; [constructor|].
  destruct (user_matches s v); cbn; now constructor.
Qed.

Lemma matching_ascending s (u : GitlabUsers) :
  ascending u -> found_ascending (matching s u).
Proof.
  intros Hasc.
  pose (le_ID := fun a b : GitlabUser => ID a <= ID b).
  assert (Hs : Sorted le_ID (List.filter (user_matches s) u)).
  { apply StronglySorted_Sorted, StronglySorted_filter.
    apply Sorted_StronglySorted; [|now apply lookup_Sorted].
    intros a b c. unfold le_ID. lia. }
  unfold matching.
  assert (Hm : Sorted (fun f g => fID f <= fID g)
                 (map project (List.filter (user_matches s) u))).
  { induction Hs as [|x l Hs IH Hhd]; cbn; constructor; [assumption|].
    destruct Hhd; cbn; constructor. assumption. }
  intros i a b. apply (Sorted_lookup _ _ _ _ _ Hm).
Qed.

(** C3. The search selects a user of the input, and prints a row for
    it, if and only if the needle occurs, byte for byte and at any
    position, in the user's name or login handle or primary email. *)
Theorem searchUsers_selects s (u : GitlabUsers) w :
  exists foundUsers,
    search_scan s (seq 0 (length u)) u [] = Some (u, foundUsers) /\
    (forall v, v ∈ u ->
       (project v ∈ foundUsers <->
        occurs_in s (Name v) \/ occurs_in s (Username v)
        \/ occurs_in s (Email v))) /\
    searchUsers s u w =
      (Done tt, printed w (match foundUsers with
                           | [] => [no_users_found]
                           | _ => map row foundUsers
                           end)).
Proof.
  exists (matching s u). split; [apply search_scan_spec|]. split.
  - intros v Hv. rewrite (elem_of_matching s u v Hv).
    apply user_matches_spec.
  - rewrite searchUsers_spec. now destruct (matching s u).
Qed.

(** C7. When no user matches, the search prints the fixed message once
    and nothing else; when some user matches, it prints the rows of the
    matches and the fixed message is not among them. *)
Theorem searchUsers_no_users_found s (u : GitlabUsers) w :
  ((forall v, v ∈ u -> user_matches s v = false) ->
   searchUsers s u w = (Done tt, printed w [no_users_found])) /\
  ((exists v, v ∈ u /\ user_matches s v = true) ->
   exists rows,
     searchUsers s u w = (Done tt, printed w rows) /\
     rows = map row (matching s u) /\ rows <> [] /\
     no_users_found ∉ rows).
Proof.
  rewrite searchUsers_spec. split.
  - intros Hnone. apply matching_nil in Hnone. now rewrite Hnone.
  - intros [v [Hv Hm]].
    assert (Hne : matching s u <> []).
    { intros Hnil. rewrite matching_nil in Hnil.
      rewrite (Hnil v Hv) in Hm. discriminate. }
    exists (map row (matching s u)).
    destruct (matching s u) as [|f found] eqn:E; [contradiction|].
    repeat split; [discriminate|].
    rewrite list_elem_of_In, in_map_iff. intros [g [Hg _]].
    now apply (row_not_message g).
Qed.

(** C10. The search is an order-preserving filter: the matches are the
    views of the matching users in the order of the input, the rows are
    printed in that order, and the slice is left as it was; so the
    matches of a slice sorted by identifier are sorted by identifier. *)
Theorem searchUsers_order_preserving s (u : GitlabUsers) w :
  search_scan s (seq 0 (length u)) u []
    = Some (u, map project (List.filter (user_matches s) u)) /\
  sublist (matching s u) (map project u) /\
  (matching s u <> [] ->
   searchUsers s u w = (Done tt, printed w (map row (matching s u)))) /\
  ((forall i a b, u !! i = Some a -> u !! S i = Some b -> ID a <= ID b) ->
   forall i f g,
     matching s u !! i = Some f -> matching s u !! S i = Some g ->
     fID f <= fID g).
Proof.
  split; [apply search_scan_spec|]. split; [apply matching_sublist|]. split.
  - intros Hne. rewrite searchUsers_spec.
    now destruct (matching s u).
  - apply matching_ascending.
Qed.
End SearchClaims.

(** ** Fetching *)

Section FetchFacts.
Local Open Scope list_scope.
Variable server : list Request -> Request -> option Response.
Variable json_Unmarshal : string -> option GitlabUsers.

Lemma sent_nil w : sent w [] = w.
Proof. unfold sent. rewrite app_nil_r. now destruct w. Qed.

Lemma sent_sent w r1 r2 : sent (sent w r1) r2 = sent w (r1 ++ r2).
Proof. unfold sent. cbn. now rewrite app_assoc. Qed.

(** The first request is the request for page 1. *)
Lemma first_request t a_str :
  mkRequest GET (GitlabURL ++ "users?active=" ++ a_str ++ "&external=false&order_by=id&page=1&per_page=100&skip_ldap=false&sort=desc&with_custom_attributes=false&private_token=" ++ t)%string "" ""
  = page_request t a_str 1.
Proof.
  reflexivity.
Qed.

(** One iteration of the loop whose page arrives and decodes: the loop
    goes on with the counter incremented by one, without wrap-around. *)
Lemma getUsers_loop_step fuel t a_str cur total acc w resp data users :
  in_int cur = true -> in_int total = true -> cur < total ->
  server (requests w) (page_request t a_str (cur + 1)) = Some resp ->
  Body resp = Some data -> json_Unmarshal data = Some users ->
  getUsers_loop server json_Unmarshal (S fuel) t a_str cur total acc w
  = getUsers_loop server json_Unmarshal fuel t a_str (cur + 1) total
      (acc ++ users) (sent w [page_request t a_str (cur + 1)]).
Proof.
  intros Hc Ht Hlt Hsrv Hbody Hjson. cbn [getUsers_loop].
  rewrite (proj2 (Z.ltb_lt _ _) Hlt).
  rewrite (increment_exact cur total Hc Ht Hlt).
  unfold bind at 1. unfold http_Get, send.
  change (mkRequest GET _ "" "") with (page_request t a_str (cur + 1)).
  rewrite Hsrv. unfold bind at 1. rewrite Hbody. cbn [check ret].
  unfold bind at 1. rewrite Hjson. reflexivity.
Qed.

Lemma getUsers_loop_done fuel t a_str cur total acc w :
  total <= cur ->
  getUsers_loop server json_Unmarshal fuel t a_str cur total acc w
  = (Done acc, w).
Proof.
  intros Hge. destruct fuel; cbn [getUsers_loop];
    rewrite (proj2 (Z.ltb_ge _ _) Hge); reflexivity.
Qed.

(** The loop, one iteration unfolded. *)
Lemma getUsers_loop_unfold fuel t a_str cur total acc w :
  getUsers_loop server json_Unmarshal (S fuel) t a_str cur total acc w =
  if cur <? total then
    let r := page_request t a_str (wrap64 (cur + 1)) in
    match server (requests w) r with
    | None => (Panic "http", sent w [r])
    | Some resp =>
        match Body resp with
        | None => (Panic "read", sent w [r])
        | Some data =>
            match json_Unmarshal data with
            | None => (Panic "json", sent w [r])
            | Some users =>
                getUsers_loop server json_Unmarshal fuel t a_str
                  (wrap64 (cur + 1)) total (acc ++ users) (sent w [r])
            end
        end
    end
  else (Done acc, w).
Proof.
  cbn [getUsers_loop]. destruct (cur <? total); [|reflexivity].
  cbv zeta. unfold bind at 1. unfold http_Get, send.
  change (mkRequest GET _ "" "")
    with (page_request t a_str (wrap64 (cur + 1))).
  destruct (server _ _) as [resp|]; [|reflexivity].
  unfold bind at 1. destruct (Body resp) as [data|]; [|reflexivity].
  cbn [check ret]. unfold bind at 1.
  destruct (json_Unmarshal data) as [users|]; reflexivity.
Qed.

(** The loop ends: with fuel for [totalPages - currentPage] iterations
    it never runs out, and it sends at most that many requests. *)
Lemma getUsers_loop_bounded fuel t a_str cur total acc w :
  in_int cur = true -> in_int total = true ->
  (Z.to_nat (total - cur) <= fuel)%nat ->
  exists out new,
    getUsers_loop server json_Unmarshal fuel t a_str cur total acc w
      = (out, sent w new) /\
    out <> OutOfFuel /\ (length new <= Z.to_nat (total - cur))%nat.
Proof.
  intros Hc Ht. revert cur acc w Hc.
  induction fuel as [|fuel IH]; intros cur acc w Hc Hfuel.
  - exists (Done acc), []. rewrite sent_nil.
    split; [apply getUsers_loop_done; lia|]. split; [discriminate | cbn; lia].
  - rewrite getUsers_loop_unfold.
    destruct (cur <? total) eqn:Hlt.
    + apply Z.ltb_lt in Hlt.
      rewrite (increment_exact cur total Hc Ht Hlt). cbv zeta.
      set (r := page_request t a_str (cur + 1)).
      assert (Hone : (length [r] <= Z.to_nat (total - cur))%nat)
        by (cbn; lia).
      destruct (server _ _) as [resp|];
        [|exists (Panic "http"), [r]; repeat split; [discriminate | exact Hone]].
      destruct (Body resp) as [data|];
        [|exists (Panic "read"), [r]; repeat split; [discriminate | exact Hone]].
      destruct (json_Unmarshal data) as [users|];
        [|exists (Panic "json"), [r]; repeat split; [discriminate | exact Hone]].
      assert (Hc' : in_int (cur + 1) = true).
      { apply in_int_spec. apply in_int_spec in Hc, Ht. lia. }
      destruct (IH (cur + 1) (acc ++ users) (sent w [r]) Hc')
        as [out [new [Hrun [Hout Hlen]]]]; [lia|].
      exists out, (r :: new). rewrite Hrun, sent_sent.
      repeat split; [assumption | cbn; lia].
    + exists (Done acc), []. rewrite sent_nil.
      repeat split; [discriminate | cbn; lia].
Qed.

(** [getUsers], with its first request unfolded. *)
Lemma getUsers_unfold fuel t a w :
  getUsers server json_Unmarshal fuel t a w =
  let a_str := strconv_FormatBool a in
  let r := page_request t a_str 1 in
  match server (requests w) r with
  | None => (Panic "http", sent w [r])
  | Some resp =>
      match Body resp with
      | None => (Panic "read", sent w [r])
      | Some data =>
          match json_Unmarshal data with
          | None => (Panic "json", sent w [r])
          | Some users =>
              match Header resp !! "X-Page" with
              | Some (xp :: _) =>
                  match strconv_Atoi xp with
                  | None => (Panic "atoi", sent w [r])
                  | Some cur =>
                      match Header resp !! "X-Total-Pages" with
                      | Some (xt :: _) =>
                          match strconv_Atoi xt with
                          | None => (Panic "atoi", sent w [r])
                          | Some total =>
                              getUsers_loop server json_Unmarshal fuel t
                                a_str cur total users (sent w [r])
                          end
                      | _ => (Panic "index out of range", sent w [r])
                      end
                  end
              | _ => (Panic "index out of range", sent w [r])
              end
          end
      end
  end.
Proof.
  unfold getUsers. cbv zeta. unfold bind at 1. unfold http_Get, send.
  rewrite first_request.
  destruct (server _ _) as [resp|]; [|reflexivity].
  unfold bind at 1. destruct (Body resp) as [data|]; [|reflexivity].
  cbn [check ret]. unfold bind at 1.
  destruct (json_Unmarshal data) as [users|]; [|reflexivity].
  cbn [ret]. unfold bind at 1. unfold header_first.
  destruct (Header resp !! "X-Page") as [[|xp rp]|]; try reflexivity.
  cbn [ret]. unfold bind at 1.
  destruct (strconv_Atoi xp) as [cur|]; [|reflexivity].
  cbn [check ret]. unfold bind at 1.
  destruct (Header resp !! "X-Total-Pages") as [[|xt rt]|]; try reflexivity.
  cbn [ret]. unfold bind at 1.
  destruct (strconv_Atoi xt) as [total|]; reflexivity.
Qed.
End FetchFacts.

(** ** Claims on fetching *)

Section FetchClaims.
Local Open Scope list_scope.
Variable server : list Request -> Request -> option Response.
Variable json_Unmarshal : string -> option GitlabUsers.

(** The loop on a remote end that serves the pages still to fetch. *)
Lemma getUsers_loop_pages t a_str rest :
  forall (c : nat) acc w fuel total,
    total = Z.of_nat (c + length rest) -> in_int total = true ->
    (forall k users, rest !! k = Some users ->
       forall h, exists resp data,
         server h (page_request t a_str (Z.of_nat (c + 1 + k))) = Some resp /\
         Body resp = Some data /\ json_Unmarshal data = Some users) ->
    (length rest <= fuel)%nat ->
    getUsers_loop server json_Unmarshal fuel t a_str (Z.of_nat c) total acc w
    = (Done (acc ++ concat rest),
       sent w (page_requests t a_str (c + 1) (length rest))).
Proof.
  induction rest as [|p rest IH]; intros c acc w fuel total Htot Hin Hsrv Hfuel.
  - cbn in *. rewrite getUsers_loop_done by lia.
    now rewrite app_nil_r, sent_nil.
  - destruct fuel as [|fuel]; [cbn in Hfuel; lia|].
    destruct (Hsrv 0%nat p eq_refl (requests w)) as [resp [data [Hr [Hb Hj]]]].
    replace (Z.of_nat (c + 1 + 0)) with (Z.of_nat c + 1) in Hr by lia.
    cbn [length] in *.
    assert (Hc : in_int (Z.of_nat c) = true).
    { apply in_int_spec. apply in_int_spec in Hin.
      unfold minInt, maxInt in *. lia. }
    rewrite (getUsers_loop_step server json_Unmarshal fuel t a_str
               (Z.of_nat c) total acc w resp data p Hc Hin ltac:(lia) Hr Hb Hj).
    replace (Z.of_nat c + 1) with (Z.of_nat (c + 1)) by lia.
    rewrite (IH (c + 1)%nat (acc ++ p) _ fuel total); [|lia|assumption| |lia].
    + rewrite sent_sent, <- app_assoc. unfold page_requests.
      cbn [seq map concat]. now replace (S (c + 1)) with (c + 1 + 1)%nat by lia.
    + intros k users Hk h.
      replace (c + 1 + 1 + k)%nat with (c + 1 + S k)%nat by lia.
      now apply Hsrv.
Qed.

(** C1. When the listing endpoint serves [N] pages, announced by the
    [X-Page] and [X-Total-Pages] headers of the first one, [getUsers]
    requests pages 1 to [N] in this order and returns the users of all
    pages, page 1 first; their number is the sum of the page sizes. *)
Theorem getUsers_concat t a (pages : list GitlabUsers) w fuel :
  pages <> [] -> serves server json_Unmarshal t a pages ->
  (length pages - 1 <= fuel)%nat ->
  getUsers server json_Unmarshal fuel t a w
    = (Done (concat pages),
       sent w (page_requests t (strconv_FormatBool a) 1 (length pages))) /\
  length (concat pages) = list_sum (map length pages).
Proof.
  intros Hne Hserves Hfuel. split.
  - destruct pages as [|p rest]; [contradiction|].
    destruct (Hserves 0%nat p eq_refl (requests w))
      as [resp [data [Hr [Hb [Hj Hhead]]]]].
    destruct (Hhead eq_refl) as [xp [rp [xt [rt [Hxp [Hcur [Hxt Htot]]]]]]].
    rewrite getUsers_unfold. cbv zeta.
    change (Z.of_nat 1) with 1 in Hr.
    rewrite Hr, Hb, Hj, Hxp, Hcur, Hxt, Htot.
    change 1 with (Z.of_nat 1) at 1.
    rewrite (getUsers_loop_pages t (strconv_FormatBool a) rest 1 p _ fuel).
    + rewrite sent_sent. reflexivity.
    + reflexivity.
    + now apply (Atoi_in_int xt).
    + intros k users Hk h.
      destruct (Hserves (S k) users Hk h) as [resp' [data' [Hr' [Hb' [Hj' _]]]]].
      exists resp', data'. replace (1 + 1 + k)%nat with (S (S k)) by lia.
      auto.
    + cbn [length] in Hfuel. clear -Hfuel. lia.
  - clear. induction pages as [|p rest IH]; [reflexivity|].
    cbn [concat map]. rewrite length_app, IH. reflexivity.
Qed.

(** C9. The pagination loop ends whatever the remote end answers.
    Some amount of fuel always suffices; when the first response
    carries the page counters [cur] and [total], fuel for
    [total - cur] iterations suffices and at most [max 0 (total - cur)]
    requests follow the first one; and every iteration that completes
    goes on with the counter raised by exactly one. *)
Theorem getUsers_terminates t a w :
  (exists bound, forall fuel, (bound <= fuel)%nat ->
     fst (getUsers server json_Unmarshal fuel t a w) <> OutOfFuel) /\
  (forall resp xp rp xt rt cur total,
     server (requests w) (page_request t (strconv_FormatBool a) 1)
       = Some resp ->
     Header resp !! "X-Page" = Some (xp :: rp) ->
     strconv_Atoi xp = Some cur ->
     Header resp !! "X-Total-Pages" = Some (xt :: rt) ->
     strconv_Atoi xt = Some total ->
     forall fuel, (Z.to_nat (total - cur) <= fuel)%nat ->
     exists out more,
       getUsers server json_Unmarshal fuel t a w
         = (out, sent w (page_request t (strconv_FormatBool a) 1 :: more)) /\
       out <> OutOfFuel /\
       (length more <= Z.to_nat (Z.max 0 (total - cur)))%nat) /\
  (forall fuel a_str cur total acc w' resp data users,
     in_int cur = true -> in_int total = true -> cur < total ->
     server (requests w') (page_request t a_str (cur + 1)) = Some resp ->
     Body resp = Some data -> json_Unmarshal data = Some users ->
     getUsers_loop server json_Unmarshal (S fuel) t a_str cur total acc w'
     = getUsers_loop server json_Unmarshal fuel t a_str (cur + 1) total (acc ++ users)
         (sent w' [page_request t a_str (cur + 1)])).
Proof.
  set (r := page_request t (strconv_FormatBool a) 1).
  assert (Hmain : forall resp xp rp xt rt cur total,
     server (requests w) r = Some resp ->
     Header resp !! "X-Page" = Some (xp :: rp) ->
     strconv_Atoi xp = Some cur ->
     Header resp !! "X-Total-Pages" = Some (xt :: rt) ->
     strconv_Atoi xt = Some total ->
     forall fuel, (Z.to_nat (total - cur) <= fuel)%nat ->
     exists out more,
       getUsers server json_Unmarshal fuel t a w = (out, sent w (r :: more)) /\
       out <> OutOfFuel /\
       (length more <= Z.to_nat (Z.max 0 (total - cur)))%nat).
  { intros resp xp rp xt rt cur total Hsrv Hxp Hcur Hxt Htotal fuel Hfuel.
    rewrite getUsers_unfold. cbv zeta. fold r. rewrite Hsrv.
    destruct (Body resp) as [data|];
      [|exists (Panic "read"), []; repeat split; [discriminate | cbn; lia]].
    destruct (json_Unmarshal data) as [users|];
      [|exists (Panic "json"), []; repeat split; [discriminate | cbn; lia]].
    rewrite Hxp, Hcur, Hxt, Htotal.
    destruct (getUsers_loop_bounded server json_Unmarshal fuel t
                (strconv_FormatBool a) cur total users (sent w [r]))
      as [out [more [Hrun [Hout Hlen]]]];
      [now apply (Atoi_in_int xp) | now apply (Atoi_in_int xt) | assumption |].
    exists out, more. rewrite Hrun, sent_sent.
    repeat split; [assumption | lia]. }
  split; [|split; [exact Hmain|]].
  - pose proof (fun fuel => getUsers_unfold server json_Unmarshal fuel t a w)
      as U. cbv zeta in U. fold r in U.
    destruct (server (requests w) r) as [resp|] eqn:Hsrv;
      [|exists 0%nat; intros fuel _; rewrite U; discriminate].
    destruct (Header resp !! "X-Page") as [[|xp rp]|] eqn:Hxp;
      [| |]; cycle 1.
    { destruct (strconv_Atoi xp) as [cur|] eqn:Hcur.
      - destruct (Header resp !! "X-Total-Pages") as [[|xt rt]|] eqn:Hxt;
          [| |]; cycle 1.
        { destruct (strconv_Atoi xt) as [total|] eqn:Htotal.
          - exists (Z.to_nat (total - cur)). intros fuel Hfuel.
            destruct (Hmain resp xp rp xt rt cur total eq_refl Hxp Hcur Hxt
                        Htotal fuel Hfuel) as [out [more [Hrun [Hout _]]]].
            now rewrite Hrun.
          - exists 0%nat; intros fuel _; rewrite U.
            destruct (Body resp); [|discriminate].
            destruct (json_Unmarshal _); discriminate. }
        all: exists 0%nat; intros fuel _; rewrite U;
          destruct (Body resp); [|discriminate];
          destruct (json_Unmarshal _); discriminate.
      - exists 0%nat; intros fuel _; rewrite U.
        destruct (Body resp); [|discriminate].
        destruct (json_Unmarshal _); discriminate. }
    all: exists 0%nat; intros fuel _; rewrite U;
      destruct (Body resp); [|discriminate];
      destruct (json_Unmarshal _); discriminate.
  - intros fuel a_str cur total acc w' resp data users.
    apply getUsers_loop_step.
Qed.
End FetchClaims.

(** ** Claims on blocking, creating and dispatching *)

Section ActionClaims.
Local Open Scope list_scope.
Variable server : list Request -> Request -> option Response.
Variable json_Unmarshal : string -> option GitlabUsers.
Variable json_Marshal : gmap string string -> option string.

Lemma print_two a b w :
  (fmt_Print a ;;; fmt_Println b) w
  = (Done tt, printed w [a; (b ++ newline)%string]).
Proof.
  unfold bind, fmt_Println, fmt_Print, printed. cbn.
  now rewrite <- app_assoc.
Qed.

(** C2. [blockUser] branches on the exact text of the status line of
    the answer to its request: "201 Created", "404 Not Found" and
    "403 Forbidden" each have their message, any other status has the
    generic one; every branch then prints the status line itself. *)
Theorem blockUser_status t u w resp :
  server (requests w) (block_request t u) = Some resp ->
  (Status resp = "201 Created" ->
   blockUser server t u w =
   (Done tt, printed (sent w [block_request t u])
      [("UserID " ++ u ++ " has been blocked" ++ newline)%string;
       (Status resp ++ newline)%string])) /\
  (Status resp = "404 Not Found" ->
   blockUser server t u w =
   (Done tt, printed (sent w [block_request t u])
      [("ERROR: Unable to find UserID " ++ u ++ newline)%string;
       (Status resp ++ newline)%string])) /\
  (Status resp = "403 Forbidden" ->
   blockUser server t u w =
   (Done tt, printed (sent w [block_request t u])
      [("ERROR: UserID " ++ u ++ " is already blocked" ++ newline)%string;
       (Status resp ++ newline)%string])) /\
  (Status resp <> "201 Created" -> Status resp <> "404 Not Found" ->
   Status resp <> "403 Forbidden" ->
   blockUser server t u w =
   (Done tt, printed (sent w [block_request t u])
      [("Error: something went wrong while trying to block UserID "
        ++ u ++ newline)%string;
       (Status resp ++ newline)%string])).
Proof.
  intros Hsrv.
  assert (Hrun : forall k : Response -> M unit,
    bind (http_Post server
            (GitlabURL ++ "users/" ++ u ++ "/block?private_token=" ++ t)%string
            "application/x-www-form-urlencoded" "") k w
    = k resp (sent w [block_request t u])).
  { intros k. unfold bind, http_Post, send.
    change (mkRequest POST _ _ "") with (block_request t u).
    now rewrite Hsrv. }
  unfold blockUser. rewrite Hrun.
  repeat split.
  - intros ->. apply print_two.
  - intros ->. apply print_two.
  - intros ->. apply print_two.
  - intros H1 H2 H3.
    rewrite (proj2 (String.eqb_neq _ _) H1), (proj2 (String.eqb_neq _ _) H2),
      (proj2 (String.eqb_neq _ _) H3).
    apply print_two.
Qed.

(** [createUser], step by step: the prompts and reads, the two
    validations, then the payload and the request. *)
Lemma createUser_unfold t w :
  createUser server json_Marshal t w =
  if negb (MatchString isAlpha (input_username w)) then
    (Fatal (username_error (input_username w)), prompted w)
  else if (254 <? String.length (input_email w))%nat
          || negb (MatchString rxEmail (input_email w)) then
    (Fatal (email_error (input_email w)), prompted w)
  else
    match json_Marshal (create_payload w) with
    | None => (Panic "json", prompted w)
    | Some body =>
        match server (requests w) (create_request t body) with
        | None => (Panic "http", sent (prompted w) [create_request t body])
        | Some resp =>
            (Done tt, printed (sent (prompted w) [create_request t body])
                        [(Status resp ++ newline)%string])
        end
    end.
Proof.
  unfold create_payload.
  unfold createUser, input_username, input_email,
    input_name, prompted, bind, fmt_Print, fmt_Println, fmt_Print,
    reader_ReadString, http_Post, send, check, log_Fatalf, ret, panic,
    printed, sent.
  destruct w as [rq out inp]. cbn [requests stdout stdin].
  destruct (ReadString inp) as [l1 r1]. cbn [fst snd requests stdout stdin].
  destruct (ReadString r1) as [l2 r2]. cbn [fst snd requests stdout stdin].
  destruct (ReadString r2) as [l3 r3]. cbn [fst snd requests stdout stdin].
  rewrite <- !app_assoc. cbn [app].
  destruct (MatchString isAlpha (remove_newlines l3)); cbn [negb];
    [|reflexivity].
  destruct ((254 <? String.length (remove_newlines l2))%nat
            || negb (MatchString rxEmail (remove_newlines l2)));
    [reflexivity|].
  destruct (json_Marshal _) as [body|]; [|reflexivity].
  cbn [requests stdout stdin].
  change (mkRequest POST _ "application/json" body)
    with (create_request t body).
  destruct (server rq (create_request t body)); reflexivity.
Qed.

(** C4. Validation comes before the network.  A login handle that
    does not match [^[A-Za-z]+$] ends the run with a fatal error naming
    it; the email is checked after the handle, so with a valid handle an
    email of more than 254 bytes or one that does not match the email
    pattern ends the run with a fatal error naming it, and with an
    invalid handle such an email still ends the run with a fatal error
    (the one naming the handle); in all these cases no request has been
    sent, and a run that does send a request has passed both
    validations. *)
Theorem createUser_validates t w :
  (MatchString isAlpha (input_username w) = false ->
   createUser server json_Marshal t w =
   (Fatal ("error: " ++ input_username w ++ " is not a valid username")%string,
    prompted w)) /\
  (MatchString isAlpha (input_username w) = true ->
   (254 < String.length (input_email w))%nat
   \/ MatchString rxEmail (input_email w) = false ->
   createUser server json_Marshal t w =
   (Fatal ("error: " ++ input_email w ++ " is not a valid email address")%string,
    prompted w)) /\
  ((254 < String.length (input_email w))%nat
   \/ MatchString rxEmail (input_email w) = false ->
   exists msg, createUser server json_Marshal t w = (Fatal msg, prompted w)) /\
  requests (prompted w) = requests w /\
  (requests (snd (createUser server json_Marshal t w)) <> requests w ->
   MatchString isAlpha (input_username w) = true /\
   (String.length (input_email w) <= 254)%nat /\
   MatchString rxEmail (input_email w) = true).
Proof.
  rewrite createUser_unfold.
  assert (Hbad : (254 < String.length (input_email w))%nat
                 \/ MatchString rxEmail (input_email w) = false ->
                 (254 <? String.length (input_email w))%nat
                 || negb (MatchString rxEmail (input_email w)) = true).
  { intros [Hlen | ->]; apply orb_true_iff;
      [left; now apply Nat.ltb_lt | now right]. }
  split; [|split; [|split; [|split]]].
  - now intros ->.
  - intros -> Hemail. cbn [negb]. now rewrite (Hbad Hemail).
  - intros Hemail. rewrite (Hbad Hemail).
    destruct (MatchString isAlpha (input_username w)); cbn [negb]; eauto.
  - reflexivity.
  - intros H.
    destruct (MatchString isAlpha (input_username w)); cbn [negb] in H;
      [|now contradiction H].
    destruct (254 <? String.length (input_email w))%nat eqn:E;
      cbn [orb] in H; [now contradiction H|].
    apply Nat.ltb_ge in E.
    destruct (MatchString rxEmail (input_email w)); cbn [negb] in H;
      [|now contradiction H].
    auto.
Qed.

(** C6. Whatever the flags, [main] runs the one action that the
    first-match precedence selects: search when the search text is set;
    otherwise block when the block id is set; otherwise create when the
    create flag is set; otherwise the listing. *)
Theorem main_runs_one_action fuel f :
  main server json_Unmarshal json_Marshal fuel f
  = run_action server json_Unmarshal json_Marshal (spec_action f) fuel f /\
  (forall a, selects f a <-> a = spec_action f).
Proof.
  unfold main, spec_action. split.
  - destruct (String.eqb_spec (searchText f) "") as [Hs|Hs];
      destruct (decide (searchText f <> "")) as [Hs'|Hs'];
      try contradiction; cbn [negb]; [|reflexivity].
    destruct (String.eqb_spec (bu f) "") as [Hb|Hb];
      destruct (decide (bu f <> "")) as [Hb'|Hb'];
      try contradiction; cbn [negb]; [|reflexivity].
    destruct (create f); reflexivity.
  - intros a.
    destruct (decide (searchText f <> "")) as [Hs|Hs].
    { destruct a; cbn; split; try tauto; try discriminate;
        intros _; assumption. }
    assert (Hs0 : searchText f = "")
      by (destruct (String.eqb_spec (searchText f) ""); tauto).
    destruct (decide (bu f <> "")) as [Hb|Hb].
    { destruct a; cbn; split; try tauto; try discriminate. }
    assert (Hb0 : bu f = "")
      by (destruct (String.eqb_spec (bu f) ""); tauto).
    destruct (create f) eqn:Hc;
      destruct a; cbn; split; try tauto; try discriminate;
      intros [_ [_ H]]; congruence.
Qed.
End ActionClaims.

(** * Worked examples *)

Section Examples.
Local Open Scope list_scope.

Lemma getUsers_concat_witness :
  getUsers sample_server sample_Unmarshal 1 "tok" true world0
    = (Done (concat [[carol; bob]; [jane]]),
       sent world0 (page_requests "tok" (strconv_FormatBool true) 1
                      (length [[carol; bob]; [jane]]))) /\
  length (concat [[carol; bob]; [jane]])
    = list_sum (map length [[carol; bob]; [jane]]).
Proof.
  apply (getUsers_concat sample_server sample_Unmarshal "tok" true
           [[carol; bob]; [jane]] world0 1).
  - discriminate.
  - intros [|[|k]] users Hk h; [| |discriminate]; injection Hk as <-.
    + exists (mkResponse "200 OK" sample_headers (Some "page one")), "page one".
      repeat split. intros _. exists "1", [], "2", []. repeat split.
    + exists (mkResponse "200 OK" sample_headers (Some "page two")), "page two".
      repeat split. discriminate.
  - cbn. lia.
Defined.

Lemma getUsers_terminates_witness :
  (exists out more,
     getUsers sample_server sample_Unmarshal 1 "tok" true world0
       = (out, sent world0
                 (page_request "tok" (strconv_FormatBool true) 1 :: more)) /\
     out <> OutOfFuel /\ (length more <= Z.to_nat (Z.max 0 (2 - 1)))%nat) /\
  getUsers_loop sample_server sample_Unmarshal 1 "tok" "true" 1 2
    [carol; bob] (sent world0 [page_request "tok" "true" 1])
  = getUsers_loop sample_server sample_Unmarshal 0 "tok" "true" (1 + 1) 2
      ([carol; bob] ++ [jane])
      (sent (sent world0 [page_request "tok" "true" 1])
         [page_request "tok" "true" (1 + 1)]).
Proof.
  pose proof (getUsers_terminates sample_server sample_Unmarshal
                "tok" true world0) as [_ [Hbound Hstep]].
  split.
  - apply (Hbound (mkResponse "200 OK" sample_headers (Some "page one"))
             "1" [] "2" [] 1 2);
      reflexivity.
  - apply (Hstep 0%nat "true" 1 2 [carol; bob]
             (sent world0 [page_request "tok" "true" 1])
             (mkResponse "200 OK" sample_headers (Some "page two"))
             "page two" [jane]);
      reflexivity.
Defined.

Lemma blockUser_status_witness :
  stdout (snd (blockUser sample_server "tok" "7" world0))
    = [("UserID 7 has been blocked" ++ newline)%string;
       ("201 Created" ++ newline)%string] /\
  stdout (snd (blockUser sample_server "tok" "8" world0))
    = [("ERROR: Unable to find UserID 8" ++ newline)%string;
       ("404 Not Found" ++ newline)%string] /\
  stdout (snd (blockUser sample_server "tok" "9" world0))
    = [("ERROR: UserID 9 is already blocked" ++ newline)%string;
       ("403 Forbidden" ++ newline)%string] /\
  stdout (snd (blockUser sample_server "tok" "10" world0))
    = [("Error: something went wrong while trying to block UserID 10"
        ++ newline)%string;
       ("500 Internal Server Error" ++ newline)%string].
Proof.
  split; [|split; [|split]].
  - rewrite (proj1 (blockUser_status sample_server "tok" "7" world0
                      (mkResponse "201 Created" ∅ (Some "")) eq_refl) eq_refl).
    reflexivity.
  - rewrite (proj1 (proj2 (blockUser_status sample_server "tok" "8" world0
                      (mkResponse "404 Not Found" ∅ (Some "")) eq_refl))
               eq_refl).
    reflexivity.
  - rewrite (proj1 (proj2 (proj2 (blockUser_status sample_server "tok" "9"
                      world0 (mkResponse "403 Forbidden" ∅ (Some ""))
                      eq_refl))) eq_refl).
    reflexivity.
  - rewrite (proj2 (proj2 (proj2 (blockUser_status sample_server "tok" "10"
                      world0
                      (mkResponse "500 Internal Server Error" ∅ (Some ""))
                      eq_refl)))); [reflexivity | discriminate..].
Defined.

Lemma searchUsers_selects_witness :
  (project jane ∈ matching "smith" [jane; bob; carol] <->
   occurs_in "smith" (Name jane) \/ occurs_in "smith" (Username jane)
   \/ occurs_in "smith" (Email jane)) /\
  (project carol ∈ matching "smith" [jane; bob; carol] <->
   occurs_in "smith" (Name carol) \/ occurs_in "smith" (Username carol)
   \/ occurs_in "smith" (Email carol)) /\
  stdout (snd (searchUsers "smith" [jane; bob; carol] world0))
    = [row (project jane)].
Proof.
  destruct (searchUsers_selects "smith" [jane; bob; carol] world0)
    as [foundUsers [Hscan [Hiff Hprint]]].
  vm_compute in Hscan. injection Hscan as <-.
  split; [|split].
  - apply (Hiff jane). repeat constructor.
  - apply (Hiff carol). repeat constructor.
  - rewrite Hprint. reflexivity.
Defined.

Lemma searchUsers_no_users_found_witness :
  searchUsers "Smith@" [jane; bob; carol] world0
    = (Done tt, printed world0 [no_users_found]) /\
  exists rows,
    searchUsers "Smith" [jane; bob; carol] world0
      = (Done tt, printed world0 rows) /\
    rows = map row (matching "Smith" [jane; bob; carol]) /\ rows <> [] /\
    no_users_found ∉ rows.
Proof.
  split.
  - apply (proj1 (searchUsers_no_users_found "Smith@" [jane; bob; carol]
                    world0)).
    intros v Hv. apply list_elem_of_In in Hv.
    destruct Hv as [<- | [<- | [<- | []]]]; reflexivity.
  - apply (proj2 (searchUsers_no_users_found "Smith" [jane; bob; carol]
                    world0)).
    exists carol. split; [repeat constructor | reflexivity].
Defined.

Lemma searchUsers_order_preserving_witness :
  searchUsers "x.com" [jane; bob; carol] world0
    = (Done tt, printed world0
                  (map row (matching "x.com" [jane; bob; carol]))) /\
  fID (project jane) <= fID (project bob).
Proof.
  destruct (searchUsers_order_preserving "x.com" [jane; bob; carol] world0)
    as [Hscan [Hsub [Hprint Hsorted]]].
  split.
  - apply Hprint. discriminate.
  - apply (Hsorted ltac:(intros [|[|[|i]]] a b;
                           intros [= <-] [= <-]; vm_compute; discriminate)
             0%nat (project jane) (project bob)); reflexivity.
Defined.

Lemma createUser_validates_witness :
  createUser sample_server sample_Marshal "tok"
      (console "Bob Roe" "a@b.com" "bob1")
    = (Fatal "error: bob1 is not a valid username",
       prompted (console "Bob Roe" "a@b.com" "bob1")) /\
  createUser sample_server sample_Marshal "tok"
      (console "Bob Roe" "not-an-email" "bob")
    = (Fatal "error: not-an-email is not a valid email address",
       prompted (console "Bob Roe" "not-an-email" "bob")) /\
  (exists msg,
     createUser sample_server sample_Marshal "tok"
       (console "Bob Roe" "not-an-email" "bob1")
     = (Fatal msg, prompted (console "Bob Roe" "not-an-email" "bob1"))) /\
  MatchString rxEmail (input_email (console "Bob Roe" "a@b.com" "bob"))
    = true.
Proof.
  split; [|split; [|split]].
  - apply (proj1 (createUser_validates sample_server sample_Marshal "tok"
                    (console "Bob Roe" "a@b.com" "bob1"))).
    reflexivity.
  - apply (proj1 (proj2 (createUser_validates sample_server sample_Marshal
                           "tok" (console "Bob Roe" "not-an-email" "bob")))).
    + reflexivity.
    + right. reflexivity.
  - apply (proj1 (proj2 (proj2 (createUser_validates sample_server
             sample_Marshal "tok"
             (console "Bob Roe" "not-an-email" "bob1"))))).
    right. reflexivity.
  - apply (proj2 (proj2 (proj2 (proj2 (createUser_validates sample_server
             sample_Marshal "tok" (console "Bob Roe" "a@b.com" "bob")))))).
    vm_compute. discriminate.
Defined.

Lemma main_runs_one_action_witness :
  main sample_server sample_Unmarshal sample_Marshal 1
    (mkFlags "tok" "smith" true true "7")
  = run_action sample_server sample_Unmarshal sample_Marshal ActSearch 1
      (mkFlags "tok" "smith" true true "7") /\
  ~ selects (mkFlags "tok" "smith" true true "7") ActBlock.
Proof.
  destruct (main_runs_one_action sample_server sample_Unmarshal
              sample_Marshal 1 (mkFlags "tok" "smith" true true "7"))
    as [Hmain Hone].
  split; [exact Hmain|].
  intros Hsel. apply Hone in Hsel. discriminate.
Defined.

(** The primitives on a few inputs. *)
Example Itoa_examples :
  strconv_Itoa 0 = "0" /\ strconv_Itoa 12 = "12" /\ strconv_Itoa (-7) = "-7".
Proof. repeat split; reflexivity. Qed.

Example Atoi_examples :
  strconv_Atoi "12" = Some 12 /\ strconv_Atoi "+3" = Some 3 /\
  strconv_Atoi "-40" = Some (-40) /\ strconv_Atoi "" = None /\
  strconv_Atoi "-" = None /\ strconv_Atoi "1x" = None /\
  strconv_Atoi "9223372036854775807" = Some maxInt /\
  strconv_Atoi "9223372036854775808" = None.
Proof. repeat split; reflexivity. Qed.

Example ReadString_examples :
  ReadString ("Bob Roe" ++ newline ++ "rest")%string
    = (("Bob Roe" ++ newline)%string, "rest") /\
  ReadString "no line feed" = ("no line feed", "").
Proof. split; reflexivity. Qed.

(** The validations on the inputs the specification names. *)
Example validation_examples :
  MatchString isAlpha "bob" = true /\ MatchString isAlpha "bob1" = false /\
  MatchString isAlpha "bob_2" = false /\ MatchString isAlpha "" = false /\
  MatchString rxEmail "a@b.com" = true /\
  MatchString rxEmail "not-an-email" = false /\
  MatchString rxEmail "jane.smith@x.com" = true /\
  MatchString rxEmail "a@b..com" = false /\
  MatchString rxEmail "a@-b.com" = false.
Proof. repeat split; vm_compute; reflexivity. Qed.

(** When both the handle and the email are invalid, the handle is the
    one reported: it is checked first. *)
Example createUser_both_invalid :
  fst (createUser sample_server sample_Marshal "tok"
         (console "Bob Roe" "not-an-email" "bob1"))
  = Fatal "error: bob1 is not a valid username".
Proof. vm_compute. reflexivity. Qed.

(** C4, as worded, fails when both fields are invalid.  The email typed
    does not match the email pattern, yet the run does not end with the
    fatal error naming the email: the handle is checked first and the
    error names the handle. *)
Lemma createUser_email_not_named :
  MatchString rxEmail
    (input_email (console "Bob Roe" "not-an-email" "bob1")) = false /\
  fst (createUser sample_server sample_Marshal "tok"
         (console "Bob Roe" "not-an-email" "bob1"))
  <> Fatal ("error: "
            ++ input_email (console "Bob Roe" "not-an-email" "bob1")
            ++ " is not a valid email address")%string /\
  ~ (forall w : World,
       (254 < String.length (input_email w))%nat
       \/ MatchString rxEmail (input_email w) = false ->
       fst (createUser sample_server sample_Marshal "tok" w)
       = Fatal ("error: " ++ input_email w
                ++ " is not a valid email address")%string).
Proof.
  assert (Hne : fst (createUser sample_server sample_Marshal "tok"
                       (console "Bob Roe" "not-an-email" "bob1"))
                <> Fatal ("error: "
                          ++ input_email (console "Bob Roe" "not-an-email" "bob1")
                          ++ " is not a valid email address")%string)
    by (vm_compute; discriminate).
  split; [reflexivity|]. split; [exact Hne|].
  intros Hall. apply Hne. apply Hall. right. reflexivity.
Qed.

(** A valid input reaches the network: one request, and the status line
    of its answer is printed. *)
Example createUser_valid :
  createUser sample_server sample_Marshal "tok"
    (console "Bob Roe" "a@b.com" "bob")
  = (Done tt,
     mkWorld [create_request "tok" "{}"]
       ["Name: "; "Email: "; "Username: ";
        ("500 Internal Server Error" ++ newline)%string] "").
Proof. vm_compute. reflexivity. Qed.

(** The default action on a listing of two pages: the users come out in
    ascending order of identifier. *)
Example main_lists_sorted :
  main sample_server sample_Unmarshal sample_Marshal 1
    (mkFlags "tok" "" false true "") world0
  = (Done tt,
     mkWorld [page_request "tok" "true" 1; page_request "tok" "true" 2]
       (flat_map (fun l => [(l ++ newline)%string])
          ["-----------------------"; "ID : 1"; "Name : Jane Doe";
           "-----------------------"; "ID : 2"; "Name : Bob Roe";
           "-----------------------"; "ID : 3"; "Name : Carol Smith"])
       "").
Proof. vm_compute. reflexivity. Qed.

(** Searching is case-sensitive: "smith" is found in an email only. *)
Example main_search :
  stdout (snd (main sample_server sample_Unmarshal sample_Marshal 1
                 (mkFlags "tok" "smith" false true "") world0))
  = [("1 " ++ tab ++ "Jane Doe " ++ tab ++ "jdoe " ++ tab
      ++ "jane.smith@x.com" ++ newline)%string].
Proof. vm_compute. reflexivity. Qed.

(** Without fuel for the second page the model stops short; the run of
    the program corresponds to any larger amount. *)
Example getUsers_needs_fuel :
  fst (getUsers sample_server sample_Unmarshal 0 "tok" true world0)
  = OutOfFuel.
Proof. vm_compute. reflexivity. Qed.
End Examples.

(** * Further properties *)

(** ** The methods of [GitlabUsers] *)

Section InterfaceFacts.
Local Open Scope list_scope.
Implicit Types (s : GitlabUsers).

Lemma Swap_Some s i j s' :
  Swap s i j = Some s' ->
  exists a b, s !! i = Some a /\ s !! j = Some b /\
              s' = <[j := a]> (<[i := b]> s).
Proof.
  unfold Swap, GitlabUsers_sort.
  destruct (s !! i) as [a|]; [|discriminate].
  destruct (s !! j) as [b|]; [|discriminate].
  intros [= <-]. now exists a, b.
Qed.

Lemma Swap_lookup s i j s' k :
  Swap s i j = Some s' ->
  s' !! k = if decide (k = j) then s !! i
            else if decide (k = i) then s !! j else s !! k.
Proof.
  intros H. apply Swap_Some in H as [a [b [Ha [Hb ->]]]].
  assert (Hi : (i < length s)%nat) by now apply lookup_lt_Some in Ha.
  assert (Hj : (j < length s)%nat) by now apply lookup_lt_Some in Hb.
  destruct (decide (k = j)) as [->|Hkj].
  - rewrite list_lookup_insert_eq by (rewrite length_insert; lia).
    now rewrite Ha.
  - rewrite list_lookup_insert_ne by congruence.
    destruct (decide (k = i)) as [->|Hki].
    + rewrite list_lookup_insert_eq by lia. now rewrite Hb.
    + now rewrite list_lookup_insert_ne by congruence.
Qed.

(** X1. [Swap] exchanges the two elements and touches nothing else; an index
    outside the slice makes it panic. *)
Theorem Swap_exchanges (s : list GitlabUser) i j :
  ((i < length s)%nat -> (j < length s)%nat ->
   exists s', Swap s i j = Some s' /\ length s' = length s /\
     s' !! i = s !! j /\ s' !! j = s !! i /\
     forall k, k <> i -> k <> j -> s' !! k = s !! k) /\
  ((length s <= i)%nat \/ (length s <= j)%nat -> Swap s i j = None).
Proof.
  split.
  - intros Hi Hj.
    destruct (lookup_lt_is_Some_2 s i Hi) as [a Ha].
    destruct (lookup_lt_is_Some_2 s j Hj) as [b Hb].
    assert (Hs : Swap s i j = Some (<[j := a]> (<[i := b]> s)))
      by (unfold Swap, GitlabUsers_sort; now rewrite Ha, Hb).
    eexists. split; [exact Hs|]. split; [now rewrite !length_insert|].
    repeat split.
    + rewrite (Swap_lookup s i j _ i Hs).
      destruct (decide (i = j)) as [->|]; [reflexivity|].
      now destruct (decide (i = i)).
    + rewrite (Swap_lookup s i j _ j Hs). now destruct (decide (j = j)).
    + intros k Hki Hkj. rewrite (Swap_lookup s i j _ k Hs).
      destruct (decide (k = j)); [contradiction|].
      now destruct (decide (k = i)).
  - unfold Swap, GitlabUsers_sort. intros [Hi|Hj].
    + now rewrite (lookup_ge_None_2 s i Hi).
    + rewrite (lookup_ge_None_2 s j Hj). now destruct (s !! i).
Qed.

(** X2. Swapping the same two elements again restores the slice. *)
Theorem Swap_involutive (s : list GitlabUser) i j s' :
  Swap s i j = Some s' -> Swap s' i j = Some s /\ Swap s' j i = Some s.
Proof.
  intros Hs.
  destruct (Swap_Some s i j s' Hs) as [a [b [Ha [Hb _]]]].
  assert (Hi' : s' !! i = Some b).
  { rewrite (Swap_lookup s i j s' i Hs).
    destruct (decide (i = j)) as [->|]; [congruence|].
    now destruct (decide (i = i)). }
  assert (Hj' : s' !! j = Some a).
  { rewrite (Swap_lookup s i j s' j Hs). now destruct (decide (j = j)). }
  assert (Hback : forall s2, (Swap s' i j = Some s2 \/ Swap s' j i = Some s2)
                             -> s2 = s).
  { intros s2 H2. apply list_eq. intros k.
    destruct H2 as [H2|H2];
      rewrite (Swap_lookup _ _ _ _ k H2), !(Swap_lookup s i j s' _ Hs);
      repeat (destruct (decide _)); subst; congruence. }
  split.
  - assert (H2 : Swap s' i j = Some (<[j := b]> (<[i := a]> s')))
      by (unfold Swap, GitlabUsers_sort; now rewrite Hi', Hj').
    rewrite H2. f_equal. apply Hback. now left.
  - assert (H2 : Swap s' j i = Some (<[i := a]> (<[j := b]> s')))
      by (unfold Swap, GitlabUsers_sort; now rewrite Hi', Hj').
    rewrite H2. f_equal. apply Hback. now right.
Qed.

(** X3. [Less] is a strict weak order on the positions of the slice, the
    order of the identifiers; it panics exactly on an index outside the
    slice. *)
Theorem Less_strict_order (s : list GitlabUser) :
  (forall i, (i < length s)%nat -> Less s i i = Some false) /\
  (forall i j, Less s i j = Some true -> Less s j i = Some false) /\
  (forall i j k, Less s i j = Some true -> Less s j k = Some true ->
                 Less s i k = Some true) /\
  (forall i j k, Less s i j = Some false -> Less s j k = Some false ->
                 Less s i k = Some false) /\
  (forall i j, Less s i j = None <->
               (length s <= i)%nat \/ (length s <= j)%nat).
Proof.
  unfold Less, GitlabUsers_sort. repeat split.
  - intros i Hi. destruct (lookup_lt_is_Some_2 s i Hi) as [a ->].
    f_equal. apply Z.ltb_irrefl.
  - intros i j. destruct (s !! i) as [a|]; [|discriminate].
    destruct (s !! j) as [b|]; [|discriminate].
    intros [= H]. f_equal. apply Z.ltb_lt in H. apply Z.ltb_ge. lia.
  - intros i j k. destruct (s !! i) as [a|]; [|discriminate].
    destruct (s !! j) as [b|]; [|discriminate].
    destruct (s !! k) as [c|]; [|discriminate].
    intros [= H1] [= H2]. f_equal.
    apply Z.ltb_lt in H1, H2. apply Z.ltb_lt. lia.
  - intros i j k. destruct (s !! i) as [a|]; [|discriminate].
    destruct (s !! j) as [b|]; [|discriminate].
    destruct (s !! k) as [c|]; [|discriminate].
    intros [= H1] [= H2]. f_equal.
    apply Z.ltb_ge in H1, H2. apply Z.ltb_ge. lia.
  - destruct (s !! i) as [a|] eqn:Hi.
    + destruct (s !! j) as [b|] eqn:Hj; [discriminate|].
      intros _. right. now apply lookup_ge_None.
    + intros _. left. now apply lookup_ge_None.
  - intros [Hi|Hj].
    + now rewrite (lookup_ge_None_2 s i Hi).
    + rewrite (lookup_ge_None_2 s j Hj). now destruct (s !! i).
Qed.

Lemma NoDup_ID_inj s x y :
  NoDup (map ID s) -> x ∈ s -> y ∈ s -> ID x = ID y -> x = y.
Proof.
  induction s as [|v s IH]; intros Hnd Hx Hy Heq; [inversion Hx|].
  cbn in Hnd. apply NoDup_cons in Hnd as [Hv Hnd].
  assert (Hin : forall z, z ∈ s -> ID z ∈ map ID s).
  { intros z Hz. apply list_elem_of_In, in_map, list_elem_of_In, Hz. }
  apply elem_of_cons in Hx as [->|Hx]; apply elem_of_cons in Hy as [->|Hy].
  - reflexivity.
  - exfalso. apply Hv. rewrite Heq. now apply Hin.
  - exfalso. apply Hv. rewrite <- Heq. now apply Hin.
  - now apply IH.
Qed.

Lemma ascending_StronglySorted s :
  ascending s -> StronglySorted (fun a b => ID a <= ID b) s.
Proof.
  intros Hasc. apply Sorted_StronglySorted; [|now apply lookup_Sorted].
  intros a b c. lia.
Qed.

(** X4. When the identifiers are distinct the outcome of sorting is forced:
    the one arrangement of the users in ascending order of identifier,
    whatever sequence of swaps a sorting routine performs to reach it. *)
Theorem sort_Sort_unique s s2 :
  NoDup (map ID s) -> Permutation s s2 -> ascending s2 ->
  sort_Sort s = Some s2.
Proof.
  intros Hnd Hperm Hasc. rewrite sort_Sort_ins. f_equal.
  set (l := reverse (fold_left (fun r x => ins x r) s [])).
  assert (Hl : l ≡ₚ s).
  { subst l. rewrite reverse_Permutation, fold_ins_perm. now rewrite app_nil_r. }
  apply (sorting.StronglySorted_unique_strong (fun a b => ID a <= ID b)).
  - intros x1 x2 H1 H2 H12 H21.
    apply (NoDup_ID_inj s); [assumption | now rewrite <- Hl | | lia].
    now rewrite Hperm.
  - apply ascending_StronglySorted. subst l.
    apply reverse_ascending, fold_ins_Sorted. constructor.
  - now apply ascending_StronglySorted.
  - now rewrite Hl.
Qed.
End InterfaceFacts.

Lemma Swap_exchanges_witness :
  (exists s2, Swap [jane; bob; carol] 0 2 = Some s2 /\
     length s2 = length [jane; bob; carol] /\
     s2 !! 0%nat = [jane; bob; carol] !! 2%nat /\
     s2 !! 2%nat = [jane; bob; carol] !! 0%nat /\
     forall k, k <> 0%nat -> k <> 2%nat -> s2 !! k = [jane; bob; carol] !! k) /\
  Swap [jane; bob; carol] 0 3 = None.
Proof.
  destruct (Swap_exchanges [jane; bob; carol] 0 2) as [Hin _].
  destruct (Swap_exchanges [jane; bob; carol] 0 3) as [_ Hout].
  split; [apply Hin; cbn; lia | apply Hout; right; cbn; lia].
Defined.

Lemma Swap_involutive_witness :
  Swap [carol; bob; jane] 0 2 = Some [jane; bob; carol] /\
  Swap [carol; bob; jane] 2 0 = Some [jane; bob; carol].
Proof.
  apply (Swap_involutive [jane; bob; carol] 0 2 [carol; bob; jane]).
  reflexivity.
Defined.

Lemma Less_strict_order_witness :
  Less [jane; bob; carol] 1 1 = Some false /\
  Less [jane; bob; carol] 1 0 = Some false /\
  Less [jane; bob; carol] 0 2 = Some true /\
  Less [jane; bob; carol] 2 0 = Some false /\
  Less [jane; bob; carol] 0 3 = None.
Proof.
  destruct (Less_strict_order [jane; bob; carol])
    as [Hirr [Hasym [Htrans [Hneg Hnone]]]].
  split; [apply Hirr; cbn; lia|].
  split; [apply Hasym; reflexivity|].
  split; [apply (Htrans 0 1 2)%nat; reflexivity|].
  split; [apply (Hneg 2 1 0)%nat; reflexivity|].
  apply Hnone. right. cbn. lia.
Defined.

Lemma sort_Sort_unique_witness :
  sort_Sort [carol; jane; bob] = Some [jane; bob; carol].
Proof.
  apply sort_Sort_unique.
  - cbn [map ID jane bob carol].
    repeat (apply NoDup_cons_2; [rewrite ?elem_of_cons, elem_of_nil; intuition discriminate|]).
    apply NoDup_nil_2.
  - apply (perm_trans (l' := [jane; carol; bob]));
      [apply perm_swap | apply perm_skip, perm_swap].
  - intros [|[|[|i]]] a b; intros [= <-] [= <-]; vm_compute; discriminate.
Defined.

(** ** More on fetching *)

Section FetchMore.
Local Open Scope list_scope.
Variable server : list Request -> Request -> option Response.
Variable json_Unmarshal : string -> option GitlabUsers.

Lemma getUsers_headers fuel t a w resp data users :
  server (requests w) (page_request t (strconv_FormatBool a) 1) = Some resp ->
  Body resp = Some data -> json_Unmarshal data = Some users ->
  getUsers server json_Unmarshal fuel t a w =
  match parsed_header resp "X-Page", parsed_header resp "X-Total-Pages" with
  | Some cur, Some total =>
      getUsers_loop server json_Unmarshal fuel t (strconv_FormatBool a)
        cur total users
        (sent w [page_request t (strconv_FormatBool a) 1])
  | Some _, None =>
      (match Header resp !! "X-Total-Pages" with
       | Some (_ :: _) => Panic "atoi"
       | _ => Panic "index out of range"
       end, sent w [page_request t (strconv_FormatBool a) 1])
  | None, _ =>
      (match Header resp !! "X-Page" with
       | Some (_ :: _) => Panic "atoi"
       | _ => Panic "index out of range"
       end, sent w [page_request t (strconv_FormatBool a) 1])
  end.
Proof.
  intros Hsrv Hbody Hjson. rewrite getUsers_unfold. cbv zeta.
  rewrite Hsrv, Hbody, Hjson. unfold parsed_header.
  destruct (Header resp !! "X-Page") as [[|xp rp]|]; try reflexivity.
  destruct (strconv_Atoi xp) as [cur|]; [|reflexivity].
  destruct (Header resp !! "X-Total-Pages") as [[|xt rt]|]; reflexivity.
Qed.

(** X5. A single page: when the first response announces no page beyond the
    current one, its users are the result and no second request is
    sent, whatever the fuel. *)
Theorem getUsers_single_page fuel t a w resp data users cur total :
  server (requests w) (page_request t (strconv_FormatBool a) 1) = Some resp ->
  Body resp = Some data -> json_Unmarshal data = Some users ->
  parsed_header resp "X-Page" = Some cur ->
  parsed_header resp "X-Total-Pages" = Some total ->
  total <= cur ->
  getUsers server json_Unmarshal fuel t a w
  = (Done users, sent w [page_request t (strconv_FormatBool a) 1]).
Proof.
  intros Hsrv Hbody Hjson Hcur Htotal Hle.
  rewrite (getUsers_headers fuel t a w resp data users Hsrv Hbody Hjson).
  rewrite Hcur, Htotal. now apply getUsers_loop_done.
Qed.

(** X6. A pagination header that is missing, empty or not a decimal integer
    ends the run with a panic after the first request: there is no
    fallback to a single page. *)
Theorem getUsers_bad_headers fuel t a w resp data users :
  server (requests w) (page_request t (strconv_FormatBool a) 1) = Some resp ->
  Body resp = Some data -> json_Unmarshal data = Some users ->
  parsed_header resp "X-Page" = None
  \/ parsed_header resp "X-Total-Pages" = None ->
  exists msg,
    getUsers server json_Unmarshal fuel t a w
    = (Panic msg, sent w [page_request t (strconv_FormatBool a) 1]).
Proof.
  intros Hsrv Hbody Hjson Hbad.
  rewrite (getUsers_headers fuel t a w resp data users Hsrv Hbody Hjson).
  destruct (parsed_header resp "X-Page") as [cur|].
  - destruct Hbad as [Hbad | ->]; [discriminate|].
    destruct (Header resp !! "X-Total-Pages") as [[|xt rt]|]; eauto.
  - destruct (Header resp !! "X-Page") as [[|xp rp]|]; eauto.
Qed.

(** X7. A first request that fails in transit, whose body cannot be read or
    whose body does not decode ends the run with a panic after that one
    request. *)
Theorem getUsers_first_page_failure fuel t a w :
  server (requests w) (page_request t (strconv_FormatBool a) 1) = None
  \/ (exists resp,
        server (requests w) (page_request t (strconv_FormatBool a) 1)
          = Some resp /\
        (Body resp = None \/
         exists data, Body resp = Some data /\ json_Unmarshal data = None)) ->
  exists msg,
    getUsers server json_Unmarshal fuel t a w
    = (Panic msg, sent w [page_request t (strconv_FormatBool a) 1]).
Proof.
  rewrite getUsers_unfold. cbv zeta.
  intros [-> | [resp [-> [-> | [data [-> ->]]]]]]; eauto.
Qed.

(** X8. A later page that fails in transit, cannot be read or does not
    decode ends the run with a panic right after its request: the users
    fetched so far are not returned and no further page is asked for. *)
Theorem getUsers_later_page_failure fuel t a w resp data users cur total :
  server (requests w) (page_request t (strconv_FormatBool a) 1) = Some resp ->
  Body resp = Some data -> json_Unmarshal data = Some users ->
  parsed_header resp "X-Page" = Some cur ->
  parsed_header resp "X-Total-Pages" = Some total ->
  cur < total ->
  let first := page_request t (strconv_FormatBool a) 1 in
  let next := page_request t (strconv_FormatBool a) (cur + 1) in
  server (requests w ++ [first]) next = None
  \/ (exists resp2,
        server (requests w ++ [first]) next = Some resp2 /\
        (Body resp2 = None \/
         exists data2, Body resp2 = Some data2 /\ json_Unmarshal data2 = None)) ->
  exists msg,
    getUsers server json_Unmarshal (S fuel) t a w
    = (Panic msg, sent w [first; next]).
Proof.
  intros Hsrv Hbody Hjson Hcur Htotal Hlt first next Hfail.
  rewrite (getUsers_headers (S fuel) t a w resp data users Hsrv Hbody Hjson).
  rewrite Hcur, Htotal, getUsers_loop_unfold.
  rewrite (proj2 (Z.ltb_lt _ _) Hlt). cbv zeta.
  assert (Hc : in_int cur = true).
  { unfold parsed_header in Hcur.
    destruct (Header resp !! "X-Page") as [[|xp rp]|]; try discriminate.
    now apply (Atoi_in_int xp). }
  assert (Ht : in_int total = true).
  { unfold parsed_header in Htotal.
    destruct (Header resp !! "X-Total-Pages") as [[|xt rt]|]; try discriminate.
    now apply (Atoi_in_int xt). }
  rewrite (increment_exact cur total Hc Ht Hlt). fold first next.
  rewrite sent_sent. cbn [requests sent app].
  destruct Hfail as [-> | [resp2 [-> [-> | [data2 [-> ->]]]]]]; eauto.
Qed.

Lemma later_requests_S t a_str cur n :
  in_int cur = true ->
  later_requests t a_str cur (S n)
  = page_request t a_str (cur + 1) :: later_requests t a_str (cur + 1) n.
Proof.
  intros _. unfold later_requests. cbn [seq map].
  replace (cur + 1 + Z.of_nat 0) with (cur + 1) by lia. f_equal.
  rewrite <- seq_shift, map_map. apply map_ext. intros k. f_equal. lia.
Qed.

(** What a run of the loop that ends well has done. *)
Lemma getUsers_loop_Done fuel t a_str cur total acc w users w' :
  in_int cur = true -> in_int total = true ->
  getUsers_loop server json_Unmarshal fuel t a_str cur total acc w
    = (Done users, w') ->
  w' = sent w (later_requests t a_str cur (Z.to_nat (total - cur))) /\
  exists more, users = acc ++ more.
Proof.
  intros Hc Ht. revert cur acc w Hc.
  induction fuel as [|fuel IH]; intros cur acc w Hc.
  - cbn [getUsers_loop]. destruct (cur <? total) eqn:Hlt; [discriminate|].
    apply Z.ltb_ge in Hlt. intros [= <- <-].
    replace (Z.to_nat (total - cur)) with 0%nat by lia.
    split; [now rewrite sent_nil | exists []; now rewrite app_nil_r].
  - rewrite getUsers_loop_unfold. destruct (cur <? total) eqn:Hlt.
    + apply Z.ltb_lt in Hlt.
      rewrite (increment_exact cur total Hc Ht Hlt). cbv zeta.
      destruct (server _ _) as [resp|]; [|discriminate].
      destruct (Body resp) as [data|]; [|discriminate].
      destruct (json_Unmarshal data) as [page|]; [|discriminate].
      intros Hrun.
      assert (Hc' : in_int (cur + 1) = true).
      { apply in_int_spec. apply in_int_spec in Hc, Ht. lia. }
      apply (IH (cur + 1) _ _ Hc') in Hrun as [-> [more ->]].
      replace (Z.to_nat (total - cur))
        with (S (Z.to_nat (total - (cur + 1)))) by lia.
      rewrite (later_requests_S t a_str cur _ Hc), sent_sent.
      split; [reflexivity|]. exists (page ++ more). now rewrite app_assoc.
    + apply Z.ltb_ge in Hlt. intros [= <- <-].
      replace (Z.to_nat (total - cur)) with 0%nat by lia.
      split; [now rewrite sent_nil | exists []; now rewrite app_nil_r].
Qed.

Lemma getUsers_Done_inv fuel t a w users w' :
  getUsers server json_Unmarshal fuel t a w = (Done users, w') ->
  exists resp data first cur total more,
    server (requests w) (page_request t (strconv_FormatBool a) 1) = Some resp /\
    Body resp = Some data /\ json_Unmarshal data = Some first /\
    parsed_header resp "X-Page" = Some cur /\
    parsed_header resp "X-Total-Pages" = Some total /\
    w' = sent w (page_request t (strconv_FormatBool a) 1
                 :: later_requests t (strconv_FormatBool a) cur
                      (Z.to_nat (total - cur))) /\
    users = first ++ more.
Proof.
  intros Hrun. pose proof Hrun as Hrun'. rewrite getUsers_unfold in Hrun'.
  cbv zeta in Hrun'.
  destruct (server _ _) as [resp|] eqn:Hsrv; [|discriminate].
  destruct (Body resp) as [data|] eqn:Hbody; [|discriminate].
  destruct (json_Unmarshal data) as [first|] eqn:Hjson; [|discriminate].
  clear Hrun'.
  rewrite (getUsers_headers fuel t a w resp data first Hsrv Hbody Hjson)
    in Hrun.
  destruct (parsed_header resp "X-Page") as [cur|] eqn:Hcur;
    [|destruct (Header resp !! "X-Page") as [[|? ?]|]; discriminate].
  destruct (parsed_header resp "X-Total-Pages") as [total|] eqn:Htotal;
    [|destruct (Header resp !! "X-Total-Pages") as [[|? ?]|]; discriminate].
  assert (Hc : in_int cur = true).
  { unfold parsed_header in Hcur.
    destruct (Header resp !! "X-Page") as [[|xp rp]|]; try discriminate.
    now apply (Atoi_in_int xp). }
  assert (Ht : in_int total = true).
  { unfold parsed_header in Htotal.
    destruct (Header resp !! "X-Total-Pages") as [[|xt rt]|]; try discriminate.
    now apply (Atoi_in_int xt). }
  apply (getUsers_loop_Done _ _ _ _ _ _ _ _ _ Hc Ht) in Hrun as [-> [more ->]].
  exists resp, data, first, cur, total, more.
  rewrite sent_sent. repeat split; auto.
Qed.

(** X9. A run of [getUsers] that returns has asked for page 1 and then,
    in order and once each, for the pages after the one the first
    response declared current, up to the declared total; its result
    starts with the users of the first page. *)
Theorem getUsers_requests fuel t a w users w' :
  getUsers server json_Unmarshal fuel t a w = (Done users, w') ->
  exists resp data first cur total more,
    server (requests w) (page_request t (strconv_FormatBool a) 1) = Some resp /\
    Body resp = Some data /\ json_Unmarshal data = Some first /\
    parsed_header resp "X-Page" = Some cur /\
    parsed_header resp "X-Total-Pages" = Some total /\
    w' = sent w (page_request t (strconv_FormatBool a) 1
                 :: later_requests t (strconv_FormatBool a) cur
                      (Z.to_nat (total - cur))) /\
    users = first ++ more.
Proof. apply getUsers_Done_inv. Qed.

Lemma getUsers_loop_only_requests fuel t a_str cur total acc w :
  exists out more,
    getUsers_loop server json_Unmarshal fuel t a_str cur total acc w
      = (out, sent w more) /\
    Forall (fun r => exists k, r = page_request t a_str k) more.
Proof.
  revert cur acc w. induction fuel as [|fuel IH]; intros cur acc w.
  - cbn [getUsers_loop]. destruct (cur <? total).
    + exists OutOfFuel, []. now rewrite sent_nil.
    + exists (Done acc), []. now rewrite sent_nil.
  - rewrite getUsers_loop_unfold. destruct (cur <? total);
      [|exists (Done acc), []; now rewrite sent_nil].
    cbv zeta. set (r := page_request t a_str (wrap64 (cur + 1))).
    assert (Hr : Forall (fun r => exists k, r = page_request t a_str k) [r])
      by (repeat constructor; now exists (wrap64 (cur + 1))).
    destruct (server _ _) as [resp|]; [|now exists (Panic "http"), [r]].
    destruct (Body resp) as [data|]; [|now exists (Panic "read"), [r]].
    destruct (json_Unmarshal data) as [page|];
      [|now exists (Panic "json"), [r]].
    destruct (IH (wrap64 (cur + 1)) (acc ++ page) (sent w [r]))
      as [out [more [-> Hmore]]].
    exists out, (r :: more). rewrite sent_sent. split; [reflexivity|].
    constructor; [now exists (wrap64 (cur + 1)) | assumption].
Qed.

Lemma getUsers_world fuel t a w :
  exists out more,
    getUsers server json_Unmarshal fuel t a w
      = (out, sent w (page_request t (strconv_FormatBool a) 1 :: more)) /\
    Forall (fun r => exists k, r = page_request t (strconv_FormatBool a) k)
      more.
Proof.
  rewrite getUsers_unfold. cbv zeta.
  set (r := page_request t (strconv_FormatBool a) 1).
  destruct (server _ _) as [resp|]; [|now exists (Panic "http"), []].
  destruct (Body resp) as [data|]; [|now exists (Panic "read"), []].
  destruct (json_Unmarshal data) as [users|]; [|now exists (Panic "json"), []].
  destruct (Header resp !! "X-Page") as [[|xp rp]|];
    try (now exists (Panic "index out of range"), []).
  destruct (strconv_Atoi xp) as [cur|]; [|now exists (Panic "atoi"), []].
  destruct (Header resp !! "X-Total-Pages") as [[|xt rt]|];
    try (now exists (Panic "index out of range"), []).
  destruct (strconv_Atoi xt) as [total|]; [|now exists (Panic "atoi"), []].
  destruct (getUsers_loop_only_requests fuel t (strconv_FormatBool a)
              cur total users (sent w [r])) as [out [more [-> Hmore]]].
  exists out, more. now rewrite sent_sent.
Qed.

(** X10. Whatever the remote end does and however the run ends, [getUsers]
    writes nothing to standard output and reads nothing from standard
    input; its first request is the one for page 1 and every request it
    sends is a request for a page of the listing, with the same token
    and the same active-only flag. *)
Theorem getUsers_only_requests fuel t a w :
  exists out more,
    getUsers server json_Unmarshal fuel t a w
      = (out, sent w (page_request t (strconv_FormatBool a) 1 :: more)) /\
    Forall (fun r => exists k, r = page_request t (strconv_FormatBool a) k)
      more.
Proof. apply getUsers_world. Qed.
End FetchMore.

Lemma getUsers_single_page_witness :
  getUsers single_server sample_Unmarshal 0 "tok" true world0
  = (Done [jane], sent world0 [page_request "tok" (strconv_FormatBool true) 1]).
Proof.
  apply (getUsers_single_page single_server sample_Unmarshal 0 "tok" true
           world0 _ "page two" [jane] 1 1 eq_refl);
    reflexivity || (cbn; lia).
Defined.

Lemma getUsers_bad_headers_witness :
  exists msg,
    getUsers headerless_server sample_Unmarshal 5 "tok" true world0
    = (Panic msg, sent world0 [page_request "tok" (strconv_FormatBool true) 1]).
Proof.
  apply (getUsers_bad_headers headerless_server sample_Unmarshal 5 "tok" true
           world0 _ "page two" [jane] eq_refl eq_refl eq_refl).
  left. reflexivity.
Defined.

Lemma getUsers_first_page_failure_witness :
  exists msg,
    getUsers down_server sample_Unmarshal 5 "tok" true world0
    = (Panic msg, sent world0 [page_request "tok" (strconv_FormatBool true) 1]).
Proof.
  apply (getUsers_first_page_failure down_server sample_Unmarshal 5 "tok" true
           world0).
  left. reflexivity.
Defined.

Lemma getUsers_later_page_failure_witness :
  exists msg,
    getUsers flaky_server sample_Unmarshal 1 "tok" true world0
    = (Panic msg,
       sent world0 [page_request "tok" (strconv_FormatBool true) 1;
                    page_request "tok" (strconv_FormatBool true) (1 + 1)]).
Proof.
  apply (getUsers_later_page_failure flaky_server sample_Unmarshal 0 "tok" true
           world0 _ "page one" [carol; bob] 1 2 eq_refl eq_refl eq_refl
           eq_refl eq_refl).
  - lia.
  - left. reflexivity.
Defined.

Lemma getUsers_requests_witness :
  exists resp data first cur total more,
    sample_server (requests world0)
      (page_request "tok" (strconv_FormatBool true) 1) = Some resp /\
    Body resp = Some data /\ sample_Unmarshal data = Some first /\
    parsed_header resp "X-Page" = Some cur /\
    parsed_header resp "X-Total-Pages" = Some total /\
    sent world0 [page_request "tok" "true" 1; page_request "tok" "true" 2]
    = sent world0 (page_request "tok" (strconv_FormatBool true) 1
                   :: later_requests "tok" (strconv_FormatBool true) cur
                        (Z.to_nat (total - cur))) /\
    ([carol; bob; jane] : GitlabUsers) = (first ++ more)%list.
Proof.
  apply (getUsers_requests sample_server sample_Unmarshal 1 "tok" true world0).
  reflexivity.
Defined.

(** ** Displaying and more on searching *)

Section PresentMore.
Local Open Scope list_scope.
Implicit Types (u : GitlabUsers) (v : GitlabUser) (w : World).

Lemma displayAllUsers_blocks u w :
  displayAllUsers u w = (Done tt, printed w (flat_map display_block u)).
Proof.
  revert w. unfold displayAllUsers.
  induction u as [|v u IH]; intros w; cbn [for_each flat_map].
  - unfold ret, printed. rewrite app_nil_r. now destruct w.
  - unfold bind at 1. unfold bind at 1. unfold bind at 1.
    unfold fmt_Println, fmt_Print at 1 2 3. cbn [requests stdout stdin].
    rewrite IH. unfold printed, display_block. cbn [requests stdout stdin].
    now rewrite <- !app_assoc.
Qed.

(** X12. [displayAllUsers] never fails and sends nothing; it prints, for
    every user of the slice and in the order of the slice, a separator,
    the identifier and the name: three lines per user, none for an empty
    slice. *)
Theorem displayAllUsers_prints u w :
  displayAllUsers u w = (Done tt, printed w (flat_map display_block u)) /\
  length (flat_map display_block u) = (3 * length u)%nat.
Proof.
  split; [apply displayAllUsers_blocks|].
  induction u as [|v u IH]; cbn [flat_map length]; [reflexivity|].
  rewrite length_app, IH. cbn. lia.
Qed.

Lemma Contains_empty (x : string) : strings_Contains x "" = true.
Proof. now destruct x. Qed.

Lemma occurs_in_trans (a b c : string) :
  occurs_in a b -> occurs_in b c -> occurs_in a c.
Proof.
  intros [p1 [q1 ->]] [p2 [q2 ->]].
  exists (p2 ++ p1)%string, (q1 ++ q2)%string.
  now rewrite !append_assoc.
Qed.

(** X13. The two empty inputs of the search.  The empty needle occurs in
    every text, so every user matches it and gets a row; in an empty
    slice nothing matches, whatever the needle, and the fixed message is
    printed. *)
Theorem searchUsers_empty_inputs s u w :
  matching "" u = map project u /\
  (u <> [] ->
   searchUsers "" u w = (Done tt, printed w (map row (map project u)))) /\
  searchUsers s [] w = (Done tt, printed w [no_users_found]).
Proof.
  assert (Hall : matching "" u = map project u).
  { unfold matching. f_equal. induction u as [|v u IH]; [reflexivity|].
    cbn [List.filter]. unfold user_matches at 1.
    now rewrite Contains_empty, IH. }
  split; [exact Hall|]. split.
  - intros Hne. rewrite searchUsers_spec, Hall.
    destruct u; [contradiction | reflexivity].
  - now rewrite searchUsers_spec.
Qed.

(** X14. A longer needle finds less: when [s1] occurs in [s2], every user
    found for [s2] is found for [s1], in the same order. *)
Theorem searchUsers_needle_monotone s1 s2 u :
  occurs_in s1 s2 -> sublist (matching s2 u) (matching s1 u).
Proof.
  intros Hocc.
  assert (Himp : forall v, user_matches s2 v = true ->
                           user_matches s1 v = true).
  { intros v. rewrite !user_matches_spec.
    intros [H|[H|H]]; eauto using occurs_in_trans. }
  unfold matching. induction u as [|v u IH]; cbn [List.filter map];
    [constructor|].
  destruct (user_matches s2 v) eqn:E2.
  - rewrite (Himp v E2). cbn [map]. now constructor.
  - destruct (user_matches s1 v); cbn [map]; [now constructor | assumption].
Qed.
End PresentMore.

Lemma searchUsers_empty_inputs_witness :
  searchUsers "" [jane; bob] world0
  = (Done tt, printed world0 (map row (map project [jane; bob]))).
Proof.
  apply (proj1 (proj2 (searchUsers_empty_inputs "" [jane; bob] world0))).
  discriminate.
Defined.

Lemma searchUsers_needle_monotone_witness :
  sublist (matching "smith@x" [jane; bob; carol])
          (matching "smith" [jane; bob; carol]).
Proof.
  apply searchUsers_needle_monotone. now exists "", "@x".
Defined.

(** ** More on creating *)

Section ConsoleFacts.
Implicit Types (s line rest : string) (w : World).

Lemma ReadString_line line rest :
  no_newline line = true ->
  ReadString (line ++ newline ++ rest) = (line ++ newline, rest).
Proof.
  unfold no_newline. induction line as [|c line IH]; intros Hline.
  - reflexivity.
  - cbn in Hline. apply andb_true_iff in Hline as [Hc Hline].
    cbn [String.append ReadString].
    destruct (Ascii.eqb c (ascii_of_nat 10)); [discriminate|].
    now rewrite (IH Hline).
Qed.

Lemma remove_newlines_line line :
  no_newline line = true -> remove_newlines (line ++ newline) = line.
Proof.
  unfold no_newline. induction line as [|c line IH]; intros Hline.
  - reflexivity.
  - cbn in Hline. apply andb_true_iff in Hline as [Hc Hline].
    cbn [String.append remove_newlines].
    destruct (Ascii.eqb c (ascii_of_nat 10)); [discriminate|].
    now rewrite (IH Hline).
Qed.

Lemma remove_newlines_clean s : no_newline (remove_newlines s) = true.
Proof.
  unfold no_newline. induction s as [|c s IH]; [reflexivity|].
  cbn [remove_newlines]. destruct (Ascii.eqb c (ascii_of_nat 10)) eqn:E;
    [assumption|].
  cbn [all_chars]. now rewrite E, IH.
Qed.

Lemma ReadString_last s :
  count_char (ascii_of_nat 10) s = 0%nat -> ReadString s = (s, "").
Proof.
  induction s as [|c s IH]; [reflexivity|].
  cbn [count_char ReadString].
  destruct (Ascii.eqb c (ascii_of_nat 10)); [discriminate|].
  intros Hs. now rewrite (IH Hs).
Qed.

Lemma ReadString_rest s :
  count_char (ascii_of_nat 10) (snd (ReadString s))
  = pred (count_char (ascii_of_nat 10) s).
Proof.
  induction s as [|c s IH]; [reflexivity|].
  cbn [count_char ReadString].
  destruct (Ascii.eqb c (ascii_of_nat 10)) eqn:E; [reflexivity|].
  destruct (ReadString s) as [line rest] eqn:Es. cbn [snd] in *.
  cbn. exact IH.
Qed.

(** X15. What is typed is what is read: three lines without line feed, each
    ended by one, come back as the name, the email and the login handle,
    in this order, and the input after them is left unread. *)
Theorem console_round_trip w name email username rest :
  no_newline name = true -> no_newline email = true ->
  no_newline username = true ->
  stdin w = name ++ newline ++ email ++ newline ++ username ++ newline ++ rest ->
  input_name w = name /\ input_email w = email /\
  input_username w = username /\ stdin (prompted w) = rest.
Proof.
  intros Hn He Hu Hin.
  unfold input_name, input_email, input_username, prompted. rewrite Hin.
  rewrite (ReadString_line name _ Hn). cbn [fst snd stdin].
  rewrite (ReadString_line email _ He). cbn [fst snd].
  rewrite (ReadString_line username _ Hu). cbn [fst snd].
  now rewrite !remove_newlines_line.
Qed.

(** X16. Whatever is typed, none of the three fields holds a line feed. *)
Theorem console_fields_clean w :
  no_newline (input_name w) = true /\ no_newline (input_email w) = true /\
  no_newline (input_username w) = true.
Proof.
  unfold input_name, input_email, input_username.
  repeat split; apply remove_newlines_clean.
Qed.
End ConsoleFacts.

Lemma console_round_trip_witness :
  input_name (console "Bob Roe" "a@b.com" "bob") = "Bob Roe" /\
  input_email (console "Bob Roe" "a@b.com" "bob") = "a@b.com" /\
  input_username (console "Bob Roe" "a@b.com" "bob") = "bob" /\
  stdin (prompted (console "Bob Roe" "a@b.com" "bob")) = "".
Proof.
  apply (console_round_trip (console "Bob Roe" "a@b.com" "bob")
           "Bob Roe" "a@b.com" "bob" ""); reflexivity.
Defined.

Section CreateMore.
Variable server : list Request -> Request -> option Response.
Variable json_Marshal : gmap string string -> option string.

(** X17. Too little input.  When fewer than two line feeds are typed before
    the input ends, the login handle read is empty, and the run ends
    with the fatal error on the handle before anything is sent. *)
Theorem createUser_short_input t w :
  (count_char (ascii_of_nat 10) (stdin w) < 2)%nat ->
  input_username w = "" /\
  createUser server json_Marshal t w
  = (Fatal "error:  is not a valid username", prompted w).
Proof.
  intros Hshort.
  assert (Hu : input_username w = "").
  { unfold input_username.
    assert (H1 : count_char (ascii_of_nat 10) (snd (ReadString (stdin w)))
                 = 0%nat) by (rewrite ReadString_rest; lia).
    rewrite (ReadString_last _ H1). reflexivity. }
  split; [exact Hu|].
  rewrite createUser_unfold, Hu. reflexivity.
Qed.

(** X18. A valid input is posted once and the answer is not judged.  With a
    handle and an email that pass validation, the payload holds the
    three fields as read and [reset_password] set to "true", and nothing
    else; it goes out in one POST to the creation endpoint, as JSON, and
    the status line of the answer is printed whatever it is. *)
Theorem createUser_posts t w body resp :
  MatchString isAlpha (input_username w) = true ->
  (String.length (input_email w) <= 254)%nat ->
  MatchString rxEmail (input_email w) = true ->
  json_Marshal (create_payload w) = Some body ->
  server (requests w) (create_request t body) = Some resp ->
  createUser server json_Marshal t w
  = (Done tt, printed (sent (prompted w) [create_request t body])
                [Status resp ++ newline]) /\
  create_payload w !! "email" = Some (input_email w) /\
  create_payload w !! "name" = Some (input_name w) /\
  create_payload w !! "username" = Some (input_username w) /\
  create_payload w !! "reset_password" = Some "true" /\
  size (create_payload w) = 4%nat.
Proof.
  intros Hu Hlen He Hbody Hsrv. split.
  - rewrite createUser_unfold, Hu, He, Hbody, Hsrv.
    rewrite (proj2 (Nat.ltb_ge _ _) Hlen). reflexivity.
  - unfold create_payload. split; [|split; [|split; [|split]]].
    + now rewrite lookup_insert_eq.
    + rewrite lookup_insert_ne by discriminate. now rewrite lookup_insert_eq.
    + rewrite !lookup_insert_ne by discriminate. now rewrite lookup_insert_eq.
    + rewrite !lookup_insert_ne by discriminate. now rewrite lookup_insert_eq.
    + rewrite !map_size_insert_None; [reflexivity|..];
        rewrite ?lookup_insert_ne by discriminate; apply lookup_empty.
Qed.
End CreateMore.

Lemma createUser_short_input_witness :
  input_username (mkWorld [] [] "Bob Roe") = "" /\
  createUser sample_server sample_Marshal "tok" (mkWorld [] [] "Bob Roe")
  = (Fatal "error:  is not a valid username",
     prompted (mkWorld [] [] "Bob Roe")).
Proof.
  apply (createUser_short_input sample_server sample_Marshal "tok"
           (mkWorld [] [] "Bob Roe")).
  apply Nat.ltb_lt. reflexivity.
Defined.

Lemma createUser_posts_witness :
  createUser sample_server sample_Marshal "tok"
    (console "Bob Roe" "a@b.com" "bob")
  = (Done tt,
     printed (sent (prompted (console "Bob Roe" "a@b.com" "bob"))
                [create_request "tok" "{}"])
       ["500 Internal Server Error" ++ newline]).
Proof.
  apply (createUser_posts sample_server sample_Marshal "tok"
           (console "Bob Roe" "a@b.com" "bob") "{}"
           (mkResponse "500 Internal Server Error" ∅ (Some "")));
    try reflexivity.
  apply Nat.leb_le. reflexivity.
Defined.

(** ** What the two validations accept *)

Section ValidationFacts.
Implicit Types (r : regex) (s : string) (c : ascii) (p q : ascii -> bool).

Lemma all_chars_app p s1 s2 :
  all_chars p (s1 ++ s2) = all_chars p s1 && all_chars p s2.
Proof.
  induction s1 as [|c s1 IH]; [reflexivity|].
  cbn [String.append all_chars]. now rewrite IH, andb_assoc.
Qed.

Lemma all_chars_In p s :
  all_chars p s = true <->
  forall c, In c (list_ascii_of_string s) -> p c = true.
Proof.
  induction s as [|d s IH]; cbn [all_chars list_ascii_of_string In].
  - split; [intros _ c [] | reflexivity].
  - rewrite andb_true_iff, IH. split.
    + intros [Hd Hs] c [<-|Hc]; auto.
    + intros H. split; [apply H; now left | intros c Hc; apply H; now right].
Qed.

Lemma count_char_app c s1 s2 :
  count_char c (s1 ++ s2) = (count_char c s1 + count_char c s2)%nat.
Proof.
  induction s1 as [|d s1 IH]; [reflexivity|].
  cbn [String.append count_char]. rewrite IH. lia.
Qed.

Lemma count_char_absent q c s :
  all_chars q s = true -> q c = false -> count_char c s = 0%nat.
Proof.
  intros Hall Hc. induction s as [|d s IH]; [reflexivity|].
  cbn [all_chars count_char] in *. apply andb_true_iff in Hall as [Hd Hs].
  destruct (Ascii.eqb_spec d c) as [->|_]; [congruence|].
  now rewrite IH.
Qed.

Lemma matches_within q r s :
  matches r s -> classes_within q r -> all_chars q s = true.
Proof.
  induction 1 as [|p c Hp|r1 r2 s1 s2 _ IH1 _ IH2|r1 r2 s _ IH|r1 r2 s _ IH
                  |r|r s1 s2 _ IH1 _ IH2];
    cbn [classes_within]; intros Hq.
  - reflexivity.
  - cbn. now rewrite (Hq c Hp).
  - destruct Hq as [H1 H2]. now rewrite all_chars_app, IH1, IH2.
  - now apply IH.
  - now apply IH.
  - reflexivity.
  - rewrite all_chars_app, IH1, IH2; auto.
Qed.

Lemma classes_within_UpTo q n r :
  classes_within q r -> classes_within q (UpTo n r).
Proof.
  intros Hr. induction n as [|n IH]; cbn [UpTo Opt classes_within]; auto.
Qed.

Lemma plus_class p s :
  matches (Plus (Class p)) s <-> s <> "" /\ all_chars p s = true.
Proof.
  unfold Plus. split.
  - intros H. apply matches_cat_inv in H as [s1 [s2 [-> [H1 H2]]]].
    apply matches_class_inv in H1 as [c [-> Hc]]. cbn.
    split; [discriminate|]. rewrite Hc. now apply star_class.
  - intros [Hne Hall]. destruct s as [|c s]; [contradiction|].
    cbn in Hall. apply andb_true_iff in Hall as [Hc Hs].
    apply (MCat (Class p) _ (String c "") s);
      [now constructor | now apply star_class].
Qed.

Lemma alpha_codes c :
  alpha c = true <->
  (65 <= nat_of_ascii c <= 90 \/ 97 <= nat_of_ascii c <= 122)%nat.
Proof.
  unfold alpha, between.
  change (nat_of_ascii "A") with 65%nat. change (nat_of_ascii "Z") with 90%nat.
  change (nat_of_ascii "a") with 97%nat. change (nat_of_ascii "z") with 122%nat.
  rewrite orb_true_iff, !andb_true_iff, !Nat.leb_le. tauto.
Qed.

(** X19. The login handle that passes validation is not empty and is made of
    ASCII letters only: no digit, no punctuation, no white space and no
    byte beyond ASCII; and every such handle passes. *)
Theorem handle_letters_only s :
  MatchString isAlpha s = true <->
  s <> "" /\
  forall c, In c (list_ascii_of_string s) ->
    (65 <= nat_of_ascii c <= 90 \/ 97 <= nat_of_ascii c <= 122)%nat.
Proof.
  rewrite MatchString_spec. unfold isAlpha. rewrite plus_class, all_chars_In.
  split; intros [Hne Hall]; (split; [exact Hne|]); intros c Hc;
    apply alpha_codes, Hall, Hc.
Qed.

Lemma label_within : classes_within host_char label.
Proof.
  assert (Ha : forall c, alnum c = true -> host_char c = true)
    by (intros c Hc; unfold host_char; now rewrite Hc).
  assert (Hh : forall c, host_inner c = true -> host_char c = true).
  { intros c. unfold host_inner, host_char.
    intros [->| ->]%orb_true_iff; [reflexivity | now rewrite orb_true_r]. }
  unfold label, Opt. cbn [classes_within].
  split; [exact Ha|]. split; [exact I|]. split; [|exact Ha].
  now apply classes_within_UpTo.
Qed.

(** X20. The email that passes the pattern has exactly one "@"; what comes
    before it is not empty and made of the bytes the pattern lists for
    the local part; what comes after starts with a letter or a digit and
    is made of letters, digits, hyphens and dots. *)
Theorem email_shape s :
  MatchString rxEmail s = true ->
  exists l d,
    s = l ++ "@" ++ d /\
    l <> "" /\ all_chars local_char l = true /\
    (exists c d', d = String c d' /\ alnum c = true) /\
    all_chars host_char d = true /\
    count_char "@" s = 1%nat.
Proof.
  rewrite MatchString_spec. unfold rxEmail. intros H.
  apply matches_cat_inv in H as [l [s2 [-> [Hl H]]]].
  apply matches_cat_inv in H as [a [d [-> [Ha Hd]]]].
  apply matches_class_inv in Ha as [c [-> Hc]].
  unfold is_char in Hc. apply Ascii.eqb_eq in Hc as ->.
  apply plus_class in Hl as [Hne Hl].
  assert (Hhost : all_chars host_char d = true).
  { apply (matches_within host_char _ d Hd). cbn [classes_within].
    split; [apply label_within|]. split; [|apply label_within].
    intros c. unfold is_char, host_char. intros ->. apply orb_true_r. }
  assert (Hfirst : exists c d', d = String c d' /\ alnum c = true).
  { apply matches_cat_inv in Hd as [d1 [d2 [-> [Hd1 _]]]].
    unfold label in Hd1.
    apply matches_cat_inv in Hd1 as [x [y [-> [Hx _]]]].
    apply matches_class_inv in Hx as [c [-> Hc]].
    exists c, (y ++ d2). split; [reflexivity | assumption]. }
  exists l, d. repeat split; try assumption.
  rewrite count_char_app. cbn [String.append count_char Ascii.eqb Bool.eqb].
  rewrite (count_char_absent local_char "@" l Hl eq_refl).
  rewrite (count_char_absent host_char "@" d Hhost eq_refl). reflexivity.
Qed.
End ValidationFacts.

Lemma handle_letters_only_witness :
  "bob" <> "" /\
  forall c, In c (list_ascii_of_string "bob") ->
    (65 <= nat_of_ascii c <= 90 \/ 97 <= nat_of_ascii c <= 122)%nat.
Proof.
  apply (proj1 (handle_letters_only "bob")). reflexivity.
Defined.

Lemma email_shape_witness :
  exists l d,
    "jane.smith@x.com" = l ++ "@" ++ d /\
    l <> "" /\ all_chars local_char l = true /\
    (exists c d', d = String c d' /\ alnum c = true) /\
    all_chars host_char d = true /\
    count_char "@" "jane.smith@x.com" = 1%nat.
Proof.
  apply (email_shape "jane.smith@x.com"). reflexivity.
Defined.

(** ** More on blocking and on [main] *)

Section MainMore.
Local Open Scope list_scope.
Variable server : list Request -> Request -> option Response.
Variable json_Unmarshal : string -> option GitlabUsers.
Variable json_Marshal : gmap string string -> option string.

(** X21. [blockUser] sends its one request whatever happens next, and reads
    nothing from the console; when the request fails in transit the run
    panics and nothing is printed. *)
Theorem blockUser_one_request t u w :
  (exists out lines,
     blockUser server t u w
     = (out, printed (sent w [block_request t u]) lines)) /\
  (server (requests w) (block_request t u) = None ->
   blockUser server t u w = (Panic "http", sent w [block_request t u])).
Proof.
  assert (Hfail : server (requests w) (block_request t u) = None ->
            blockUser server t u w = (Panic "http", sent w [block_request t u])).
  { intros Hnone. unfold blockUser, bind, http_Post, send.
    change (mkRequest POST _ _ "") with (block_request t u).
    now rewrite Hnone. }
  split; [|exact Hfail].
  destruct (server (requests w) (block_request t u)) as [resp|] eqn:Hsrv.
  - assert (Hrun : forall k : Response -> M unit,
      bind (http_Post server
              (GitlabURL ++ "users/" ++ u ++ "/block?private_token=" ++ t)%string
              "application/x-www-form-urlencoded" "") k w
      = k resp (sent w [block_request t u])).
    { intros k. unfold bind, http_Post, send.
      change (mkRequest POST _ _ "") with (block_request t u).
      now rewrite Hsrv. }
    unfold blockUser. rewrite Hrun.
    repeat (destruct (String.eqb (Status resp) _));
      rewrite print_two; eauto.
  - exists (Panic "http"), []. rewrite (Hfail eq_refl).
    unfold printed. cbn. now rewrite app_nil_r.
Qed.

Lemma getUsers_served t a (pages : list GitlabUsers) w fuel :
  pages <> [] -> serves server json_Unmarshal t a pages ->
  (length pages - 1 <= fuel)%nat ->
  getUsers server json_Unmarshal fuel t a w
  = (Done (concat pages),
     sent w (page_requests t (strconv_FormatBool a) 1 (length pages))).
Proof.
  intros Hne Hserves Hfuel.
  destruct pages as [|p rest]; [contradiction|].
  destruct (Hserves 0%nat p eq_refl (requests w))
    as [resp [data [Hr [Hb [Hj Hhead]]]]].
  destruct (Hhead eq_refl) as [xp [rp [xt [rt [Hxp [Hcur [Hxt Htot]]]]]]].
  rewrite getUsers_unfold. cbv zeta.
  change (Z.of_nat 1) with 1 in Hr.
  rewrite Hr, Hb, Hj, Hxp, Hcur, Hxt, Htot.
  change 1 with (Z.of_nat 1) at 1.
  rewrite (getUsers_loop_pages server json_Unmarshal t (strconv_FormatBool a)
             rest 1 p _ fuel).
  - rewrite sent_sent. reflexivity.
  - reflexivity.
  - now apply (Atoi_in_int xt).
  - intros k users Hk h.
    destruct (Hserves (S k) users Hk h) as [resp' [data' [Hr' [Hb' [Hj' _]]]]].
    exists resp', data'. replace (1 + 1 + k)%nat with (S (S k)) by lia.
    auto.
  - cbn [length] in Hfuel. clear -Hfuel. lia.
Qed.

Lemma sort_Sort_sorted (u : GitlabUsers) :
  exists sorted,
    sort_Sort u = Some sorted /\ Permutation u sorted /\ ascending sorted.
Proof.
  eexists. split; [apply sort_Sort_ins|]. split.
  - rewrite reverse_Permutation, fold_ins_perm. now rewrite app_nil_r.
  - apply reverse_ascending, fold_ins_Sorted. constructor.
Qed.

(** X22. The default action, end to end.  Against a remote end that serves
    the listing in pages, [main] without search text, block id or create
    flag fetches every page and prints the block of every user fetched,
    once each, in ascending order of identifier, whatever the order in
    which the pages delivered them. *)
Theorem main_lists_all fuel f (pages : list GitlabUsers) w :
  searchText f = "" -> bu f = "" -> create f = false ->
  pages <> [] -> serves server json_Unmarshal (token f) (active f) pages ->
  (length pages - 1 <= fuel)%nat ->
  exists sorted,
    Permutation (concat pages) sorted /\ ascending sorted /\
    main server json_Unmarshal json_Marshal fuel f w
    = (Done tt,
       printed (sent w (page_requests (token f)
                          (strconv_FormatBool (active f)) 1 (length pages)))
         (flat_map display_block sorted)).
Proof.
  intros Hs Hb Hc Hne Hserves Hfuel.
  destruct (sort_Sort_sorted (concat pages)) as [sorted [Hsort [Hperm Hasc]]].
  exists sorted. split; [exact Hperm|]. split; [exact Hasc|].
  unfold main. rewrite Hs, Hb, Hc. cbn [String.eqb negb].
  unfold bind at 1.
  rewrite (getUsers_served (token f) (active f) pages w fuel Hne Hserves Hfuel).
  unfold bind at 1. rewrite Hsort. cbn [check ret].
  apply displayAllUsers_blocks.
Qed.

(** X23. The search action, end to end.  Against the same remote end, [main]
    with a search text prints one row for every fetched user that
    matches, the rows in ascending order of identifier, or the fixed
    message when none matches; the block id and the create flag play no
    part. *)
Theorem main_searches_sorted fuel f (pages : list GitlabUsers) w :
  searchText f <> "" ->
  pages <> [] -> serves server json_Unmarshal (token f) (active f) pages ->
  (length pages - 1 <= fuel)%nat ->
  exists sorted,
    Permutation (concat pages) sorted /\ ascending sorted /\
    found_ascending (matching (searchText f) sorted) /\
    main server json_Unmarshal json_Marshal fuel f w
    = (Done tt,
       printed (sent w (page_requests (token f)
                          (strconv_FormatBool (active f)) 1 (length pages)))
         (match matching (searchText f) sorted with
          | [] => [no_users_found]
          | found => map row found
          end)).
Proof.
  intros Hs Hne Hserves Hfuel.
  destruct (sort_Sort_sorted (concat pages)) as [sorted [Hsort [Hperm Hasc]]].
  exists sorted. split; [exact Hperm|]. split; [exact Hasc|].
  split; [now apply matching_ascending|].
  unfold main. rewrite (proj2 (String.eqb_neq _ _) Hs). cbn [negb].
  unfold bind at 1.
  rewrite (getUsers_served (token f) (active f) pages w fuel Hne Hserves Hfuel).
  unfold bind at 1. rewrite Hsort. cbn [check ret].
  apply searchUsers_spec.
Qed.
End MainMore.

Lemma sample_serves :
  serves sample_server sample_Unmarshal "tok" true [[carol; bob]; [jane]].
Proof.
  intros [|[|k]] users Hk h; [| |discriminate]; injection Hk as <-.
  - exists (mkResponse "200 OK" sample_headers (Some "page one")), "page one".
    split; [reflexivity|]. split; [reflexivity|]. split; [reflexivity|].
    intros _. exists "1", [], "2", []. repeat split.
  - exists (mkResponse "200 OK" sample_headers (Some "page two")), "page two".
    split; [reflexivity|]. split; [reflexivity|]. split; [reflexivity|].
    discriminate.
Qed.

Lemma blockUser_one_request_witness :
  blockUser down_server "tok" "7" world0
  = (Panic "http", sent world0 [block_request "tok" "7"]).
Proof.
  apply (proj2 (blockUser_one_request down_server "tok" "7" world0)).
  reflexivity.
Defined.

Lemma main_lists_all_witness :
  exists sorted,
    Permutation (concat [[carol; bob]; [jane]]) sorted /\
    ascending sorted /\
    main sample_server sample_Unmarshal sample_Marshal 1
      (mkFlags "tok" "" false true "") world0
    = (Done tt,
       printed (sent world0 (page_requests "tok" (strconv_FormatBool true) 1
                               (length [[carol; bob]; [jane]])))
         (flat_map display_block sorted)).
Proof.
  apply (main_lists_all sample_server sample_Unmarshal sample_Marshal 1
           (mkFlags "tok" "" false true "") [[carol; bob]; [jane]] world0);
    try reflexivity.
  - discriminate.
  - exact sample_serves.
Defined.

Lemma main_searches_sorted_witness :
  exists sorted,
    Permutation (concat [[carol; bob]; [jane]]) sorted /\
    ascending sorted /\
    found_ascending (matching "o" sorted) /\
    main sample_server sample_Unmarshal sample_Marshal 1
      (mkFlags "tok" "o" true true "7") world0
    = (Done tt,
       printed (sent world0 (page_requests "tok" (strconv_FormatBool true) 1
                               (length [[carol; bob]; [jane]])))
         (match matching "o" sorted with
          | [] => [no_users_found]
          | found => map row found
          end)).
Proof.
  apply (main_searches_sorted sample_server sample_Unmarshal sample_Marshal 1
           (mkFlags "tok" "o" true true "7") [[carol; bob]; [jane]] world0);
    try reflexivity.
  - discriminate.
  - discriminate.
  - exact sample_serves.
Defined.

(** ** No page twice, and nothing printed when fetching fails *)

Section FetchNoRepeat.
Local Open Scope list_scope.
Variable server : list Request -> Request -> option Response.
Variable json_Unmarshal : string -> option GitlabUsers.
Variable json_Marshal : gmap string string -> option string.

Lemma length_append (a b : string) :
  String.length (a ++ b) = (String.length a + String.length b)%nat.
Proof. induction a as [|c a IH]; cbn; [reflexivity | now rewrite IH]. Qed.

Lemma append_inj_l (p x y : string) : (p ++ x = p ++ y)%string -> x = y.
Proof.
  induction p as [|c p IH]; cbn; [auto|]. intros [= H]. now apply IH.
Qed.

Lemma append_inj_r (x y z : string) : (x ++ z = y ++ z)%string -> x = y.
Proof.
  revert y. induction x as [|c x IH]; intros [|d y] H; cbn in H.
  - reflexivity.
  - apply (f_equal String.length) in H. cbn in H.
    rewrite length_append in H. lia.
  - apply (f_equal String.length) in H. cbn in H.
    rewrite length_append in H. lia.
  - injection H as -> H. f_equal. now apply IH.
Qed.

Lemma Itoa_inj (k1 k2 : Z) :
  in_int k1 = true -> in_int k2 = true ->
  strconv_Itoa k1 = strconv_Itoa k2 -> k1 = k2.
Proof.
  intros H1 H2 Heq. apply (f_equal strconv_Atoi) in Heq.
  rewrite !Atoi_Itoa in Heq by assumption. now injection Heq.
Qed.

(** Requests for different pages are different requests. *)
Lemma page_request_inj t a_str (k1 k2 : Z) :
  in_int k1 = true -> in_int k2 = true ->
  page_request t a_str k1 = page_request t a_str k2 -> k1 = k2.
Proof.
  intros H1 H2 Heq. apply (f_equal req_url) in Heq.
  unfold page_request in Heq. cbn [req_url] in Heq.
  apply append_inj_l in Heq. apply append_inj_l in Heq.
  apply append_inj_l in Heq. apply append_inj_l in Heq.
  apply append_inj_r in Heq. now apply Itoa_inj.
Qed.

Lemma NoDup_map_inj_on {A B} (f : A -> B) (l : list A) :
  (forall x y, x ∈ l -> y ∈ l -> f x = f y -> x = y) ->
  NoDup l -> NoDup (map f l).
Proof.
  induction l as [|x l IH]; intros Hinj Hnd; cbn [map]; [constructor|].
  apply NoDup_cons in Hnd as [Hx Hnd]. apply NoDup_cons. split.
  - rewrite list_elem_of_In, in_map_iff. intros [y [Hy Hin]].
    apply list_elem_of_In in Hin.
    assert (y = x) by (apply Hinj; [now right | now left | assumption]).
    congruence.
  - apply IH; [|assumption]. intros y z Hy Hz. apply Hinj; now right.
Qed.

(** X11. No page is asked for twice.  When the first response declares a
    current page of at least 1, the requests of a run that returns are
    pairwise different. *)
Theorem getUsers_no_repeat fuel t a w users w' resp cur :
  server (requests w) (page_request t (strconv_FormatBool a) 1) = Some resp ->
  parsed_header resp "X-Page" = Some cur -> 1 <= cur ->
  getUsers server json_Unmarshal fuel t a w = (Done users, w') ->
  exists reqs, w' = sent w reqs /\ NoDup reqs.
Proof.
  intros Hsrv Hcur Hpos Hrun.
  apply getUsers_Done_inv in Hrun
    as (resp' & data & first & cur' & total & more
        & Hsrv' & _ & _ & Hcur' & Htotal & -> & _).
  rewrite Hsrv in Hsrv'. injection Hsrv' as <-.
  rewrite Hcur in Hcur'. injection Hcur' as <-.
  eexists. split; [reflexivity|].
  assert (Ht : in_int total = true).
  { unfold parsed_header in Htotal.
    destruct (Header resp !! "X-Total-Pages") as [[|xt rt]|]; try discriminate.
    now apply (Atoi_in_int xt). }
  apply in_int_spec in Ht. unfold minInt, maxInt in Ht.
  set (n := Z.to_nat (total - cur)).
  replace (page_request t (strconv_FormatBool a) 1
           :: later_requests t (strconv_FormatBool a) cur n)
    with (map (page_request t (strconv_FormatBool a))
            (1 :: map (fun k => cur + 1 + Z.of_nat k) (seq 0 n)))
    by (unfold later_requests; cbn [map]; now rewrite map_map).
  - apply NoDup_map_inj_on.
    + assert (Hrange : forall k,
               k ∈ 1 :: map (fun k => cur + 1 + Z.of_nat k) (seq 0 n) ->
               in_int k = true).
      { intros k Hk. apply in_int_spec. unfold minInt, maxInt.
        apply elem_of_cons in Hk as [->|Hk]; [lia|].
        apply list_elem_of_In, in_map_iff in Hk as [j [<- Hj]].
        apply in_seq in Hj. subst n. lia. }
      intros x y Hx Hy. apply page_request_inj; auto.
    + apply NoDup_cons. split.
      * rewrite list_elem_of_In, in_map_iff. intros [j [Hj _]]. lia.
      * apply NoDup_map_inj_on; [|apply NoDup_seq].
        intros x y _ _. lia.
Qed.

(** X24. A fetch that fails leaves nothing on standard output: the listing
    and the search print only once every page has arrived and decoded. *)
Theorem main_fetch_failure fuel f w msg w' :
  searchText f <> "" \/ (bu f = "" /\ create f = false) ->
  getUsers server json_Unmarshal fuel (token f) (active f) w = (Panic msg, w') ->
  main server json_Unmarshal json_Marshal fuel f w = (Panic msg, w') /\
  stdout w' = stdout w.
Proof.
  intros Hact Hrun. split.
  - unfold main.
    destruct (String.eqb_spec (searchText f) "") as [Hs|Hs]; cbn [negb].
    + destruct Hact as [Hne | [-> ->]]; [contradiction|]. cbn [String.eqb negb].
      unfold bind at 1. now rewrite Hrun.
    + unfold bind at 1. now rewrite Hrun.
  - destruct (getUsers_world server json_Unmarshal fuel (token f) (active f) w)
      as [out [more [Heq _]]].
    rewrite Hrun in Heq. now injection Heq as _ ->.
Qed.
End FetchNoRepeat.

Lemma getUsers_no_repeat_witness :
  exists reqs,
    sent world0 [page_request "tok" "true" 1; page_request "tok" "true" 2]
    = sent world0 reqs /\ NoDup reqs.
Proof.
  apply (getUsers_no_repeat sample_server sample_Unmarshal 1 "tok" true world0
           [carol; bob; jane] _
           (mkResponse "200 OK" sample_headers (Some "page one")) 1);
    reflexivity.
Defined.

Lemma main_fetch_failure_witness :
  main down_server sample_Unmarshal sample_Marshal 3
    (mkFlags "tok" "" false true "") world0
  = (Panic "http", sent world0 [page_request "tok" "true" 1]) /\
  stdout (sent world0 [page_request "tok" "true" 1]) = stdout world0.
Proof.
  apply (main_fetch_failure down_server sample_Unmarshal sample_Marshal 3
           (mkFlags "tok" "" false true "") world0).
  - right. split; reflexivity.
  - reflexivity.
Defined.

(** The bound on the declared current page matters: told that the
    current page is page 0, the program asks for page 1 a second time
    and returns its users twice. *)
Example getUsers_page_zero :
  getUsers zero_server sample_Unmarshal 1 "tok" true world0
  = (Done [jane; jane],
     sent world0 [page_request "tok" "true" 1; page_request "tok" "true" 1]).
Proof. vm_compute. reflexivity. Qed.
